(** * DocumentEvaluator: segmentation, scoring orchestration, aggregation and
      CSV flattening, embedded from the Python sources

    - [PyStr]      : the [str] operations the sources rely on
                     ([split], [strip], [join], [in], [format]).
    - [Parser]     : [src/document_parser.py] ([DocumentParser.chunk_text]).
    - [Evaluator]  : [src/evaluator.py] ([DocumentEvaluation], [LLMEvaluator]).
    - [Output]     : [src/output.py] ([EvaluationResult], [CSVFormatter]).
    - [Main]       : [main.py] ([evaluate_document]).

    Conventions.  A Python [str] is a [string] of Latin-1 code points; a
    Python [int] is a [Z]; a Python [float] is modelled by an exact rational
    ([Q]), so rounding is abstracted away.  The tokenizer ([tiktoken]) and the
    remote scoring service are external: both are Section variables. *)

From Stdlib Require Import String Ascii List ZArith QArith Lia Bool Arith.
From Stdlib Require Import DecimalString.
Import ListNotations.
Open Scope string_scope.
Open Scope Z_scope.

(* ================================================================== *)
(** * Python string primitives *)
(* ================================================================== *)

Module PyStr.

(** The newline and the double quote as one-character strings. *)
Definition nl : string := String (ascii_of_nat 10) EmptyString.
Definition dq : string := String (ascii_of_nat 34) EmptyString.

(** [sep.join(parts)]. *)
Definition join (sep : string) (parts : list string) : string :=
  String.concat sep parts.

(** [str.isspace] on the code points below 256. *)
Definition isspace (c : ascii) : bool :=
  let n := nat_of_ascii c in
  (((9 <=? n) && (n <=? 13)) || ((28 <=? n) && (n <=? 32))
   || (n =? 133) || (n =? 160))%nat.

Fixpoint lstrip (s : string) : string :=
  match s with
  | EmptyString => EmptyString
  | String c s' => if isspace c then lstrip s' else s
  end.

Fixpoint rstrip (s : string) : string :=
  match s with
  | EmptyString => EmptyString
  | String c s' =>
      match rstrip s' with
      | EmptyString => if isspace c then EmptyString else String c EmptyString
      | r => String c r
      end
  end.

(** [s.strip()]. *)
Definition strip (s : string) : string := rstrip (lstrip s).

(** [c in s] for a single character [c]. *)
Fixpoint contains_char (c : ascii) (s : string) : bool :=
  match s with
  | EmptyString => false
  | String d s' => Ascii.eqb c d || contains_char c s'
  end.

(** [s.split(sep)] for a non-empty [sep]: leftmost, non-overlapping
    occurrences.  [skip] counts the characters of a separator occurrence that
    are still to be consumed; [acc] is the piece being read. *)
Fixpoint split_go (sep : string) (skip : nat) (acc s : string) : list string :=
  match s with
  | EmptyString => [acc]
  | String c s' =>
      match skip with
      | S k => split_go sep k acc s'
      | O =>
          if prefix sep s
          then acc :: split_go sep (pred (String.length sep)) EmptyString s'
          else split_go sep 0 (acc ++ String c EmptyString) s'
      end
  end.

Definition split (sep s : string) : list string := split_go sep 0 EmptyString s.

(** Truthiness of a [str]. *)
Definition nonempty (s : string) : bool :=
  match s with EmptyString => false | _ => true end.

(** [str(n)] for an [int]. *)
Definition str_of_int (n : Z) : string := NilZero.string_of_int (Z.to_int n).

(** ** Exceptions and call outcomes *)

(** The exception classes that occur; each carries what [str(e)] is built
    from.  [APIError] stands for an [openai.APIError] that is neither a
    [RateLimitError] nor an [APITimeoutError]; [OtherError] for an exception of
    any class the handlers do not name. *)
Inductive exn : Type :=
| KeyError (key : string)
| IndexError (msg : string)
| ValueError (msg : string)
| AttributeError (msg : string)
| JSONDecodeError (msg : string)
| RateLimitError (msg : string)
| APITimeoutError (msg : string)
| APIError (msg : string)
| OtherError (msg : string)
| Exception (msg : string).

(** A call either returns a value or raises. *)
Inductive outcome (A : Type) : Type :=
| Returns (a : A)
| Raises (e : exn).
Arguments Returns {A} a.
Arguments Raises {A} e.

(** [repr(s)] for a [str] of code points below 256. *)
Definition hex_digit (n : nat) : ascii :=
  ascii_of_nat (if (n <? 10)%nat then 48 + n else 87 + n).

Definition isprintable (c : ascii) : bool :=
  let n := nat_of_ascii c in
  (((32 <=? n) && (n <=? 126)) || ((161 <=? n) && negb (n =? 173)))%nat.

Definition repr_char (quote c : ascii) : string :=
  let n := nat_of_ascii c in
  if Ascii.eqb c quote || (n =? 92)%nat
  then String (ascii_of_nat 92) (String c EmptyString)
  else if (n =? 10)%nat then String (ascii_of_nat 92) "n"
  else if (n =? 13)%nat then String (ascii_of_nat 92) "r"
  else if (n =? 9)%nat then String (ascii_of_nat 92) "t"
  else if isprintable c then String c EmptyString
  else String (ascii_of_nat 92)
         (String "x" (String (hex_digit (n / 16))
                        (String (hex_digit (n mod 16)) EmptyString))).

Fixpoint repr_body (quote : ascii) (s : string) : string :=
  match s with
  | EmptyString => EmptyString
  | String c s' => repr_char quote c ++ repr_body quote s'
  end.

Definition repr (s : string) : string :=
  let quote :=
    if contains_char (ascii_of_nat 39) s && negb (contains_char (ascii_of_nat 34) s)
    then ascii_of_nat 34 else ascii_of_nat 39 in
  String quote (repr_body quote s ++ String quote EmptyString).

(** [str(e)]. *)
Definition exn_str (e : exn) : string :=
  match e with
  | KeyError key => repr key
  | IndexError msg | ValueError msg | AttributeError msg
  | JSONDecodeError msg | RateLimitError msg | APITimeoutError msg
  | APIError msg | OtherError msg | Exception msg => msg
  end.

(** ** [str.format] with keyword arguments of type [str]

    The scanner follows CPython's [MarkupIterator_next] and [parse_field].
    Literal text is copied and a doubled brace is a literal brace.  A field
    name runs to the first closing brace, [:] or [!] outside square brackets
    (an opening brace in it is an error); a conversion is one character; a
    format specification runs to its matching closing brace.  The argument
    name is the field name up to the first dot or opening square bracket: an
    empty or numeric argument name indexes the positional arguments (there
    are none), any other is looked up among the keyword arguments and raises
    [KeyError] when absent.  Fields are rendered as they are met, so the first
    failing field decides the outcome.  The value of a found argument is
    substituted as it is: accessors, conversions and format specifications
    applied to a found argument are outside this model. *)

Definition lbrace : ascii := ascii_of_nat 123.
Definition rbrace : ascii := ascii_of_nat 125.
Definition lbracket : ascii := ascii_of_nat 91.
Definition rbracket : ascii := ascii_of_nat 93.
Definition colon : ascii := ascii_of_nat 58.
Definition bang : ascii := ascii_of_nat 33.
Definition dot : ascii := ascii_of_nat 46.

Fixpoint arg_name (field_name : string) : string :=
  match field_name with
  | EmptyString => EmptyString
  | String c rest =>
      if Ascii.eqb c dot || Ascii.eqb c lbracket then EmptyString
      else String c (arg_name rest)
  end.

Definition is_digit (c : ascii) : bool :=
  let n := nat_of_ascii c in ((48 <=? n) && (n <=? 57))%nat.

Fixpoint all_digits (s : string) : bool :=
  match s with
  | EmptyString => true
  | String c s' => is_digit c && all_digits s'
  end.

Fixpoint int_of_digits (acc : Z) (s : string) : Z :=
  match s with
  | EmptyString => acc
  | String c s' => int_of_digits (10 * acc + Z.of_nat (nat_of_ascii c - 48)) s'
  end.

(** [PY_SSIZE_T_MAX] on a 64-bit build. *)
Definition ssize_t_max : Z := 2 ^ 63 - 1.

Fixpoint lookup {A : Type} (key : string) (d : list (string * A)) : option A :=
  match d with
  | [] => None
  | (k, v) :: d' => if String.eqb key k then Some v else lookup key d'
  end.

(** [get_field_object] with no positional argument. *)
Definition render_field (kwargs : list (string * string)) (field_name : string)
  : outcome string :=
  let name := arg_name field_name in
  if nonempty name && all_digits name then
    if int_of_digits 0 name >? ssize_t_max
    then Raises (ValueError "Too many decimal digits in format string")
    else Raises (IndexError
                   ("Replacement index " ++ str_of_int (int_of_digits 0 name)
                    ++ " out of range for positional args tuple"))
  else if negb (nonempty name) then
    Raises (IndexError "Replacement index 0 out of range for positional args tuple")
  else
    match lookup name kwargs with
    | Some v => Returns v
    | None => Raises (KeyError name)
    end.

Inductive format_mode : Type :=
| Literal
| AfterOpen
| AfterClose
| FieldName (name : string) (in_brackets : bool)
| Conversion (name : string)
| AfterConversion (name : string)
| FormatSpec (name : string) (depth : nat).

Definition snoc (s : string) (c : ascii) : string := s ++ String c EmptyString.

Fixpoint format_go (kwargs : list (string * string)) (mode : format_mode)
         (out template : string) : outcome string :=
  let field_done name rest :=
    match render_field kwargs name with
    | Returns v => format_go kwargs Literal (out ++ v) rest
    | Raises e => Raises e
    end in
  let in_field_name name c rest :=
    if Ascii.eqb c lbrace then Raises (ValueError "unexpected '{' in field name")
    else if Ascii.eqb c lbracket then format_go kwargs (FieldName (snoc name c) true) out rest
    else if Ascii.eqb c rbrace then field_done name rest
    else if Ascii.eqb c colon then format_go kwargs (FormatSpec name 0) out rest
    else if Ascii.eqb c bang then format_go kwargs (Conversion name) out rest
    else format_go kwargs (FieldName (snoc name c) false) out rest in
  match template with
  | EmptyString =>
      match mode with
      | Literal => Returns out
      | AfterOpen => Raises (ValueError "Single '{' encountered in format string")
      | AfterClose => Raises (ValueError "Single '}' encountered in format string")
      | FieldName _ _ => Raises (ValueError "expected '}' before end of string")
      | Conversion _ =>
          Raises (ValueError "end of string while looking for conversion specifier")
      | AfterConversion _ | FormatSpec _ _ =>
          Raises (ValueError "unmatched '{' in format spec")
      end
  | String c rest =>
      match mode with
      | Literal =>
          if Ascii.eqb c lbrace then format_go kwargs AfterOpen out rest
          else if Ascii.eqb c rbrace then format_go kwargs AfterClose out rest
          else format_go kwargs Literal (snoc out c) rest
      | AfterOpen =>
          if Ascii.eqb c lbrace then format_go kwargs Literal (snoc out c) rest
          else in_field_name EmptyString c rest
      | AfterClose =>
          if Ascii.eqb c rbrace then format_go kwargs Literal (snoc out c) rest
          else Raises (ValueError "Single '}' encountered in format string")
      | FieldName name false => in_field_name name c rest
      | FieldName name true =>
          format_go kwargs (FieldName (snoc name c) (negb (Ascii.eqb c rbracket))) out rest
      | Conversion name => format_go kwargs (AfterConversion name) out rest
      | AfterConversion name =>
          if Ascii.eqb c rbrace then field_done name rest
          else if Ascii.eqb c colon then format_go kwargs (FormatSpec name 0) out rest
          else Raises (ValueError "expected ':' after conversion specifier")
      | FormatSpec name depth =>
          if Ascii.eqb c lbrace then format_go kwargs (FormatSpec name (S depth)) out rest
          else if Ascii.eqb c rbrace then
            match depth with
            | O => field_done name rest
            | S d => format_go kwargs (FormatSpec name d) out rest
            end
          else format_go kwargs (FormatSpec name depth) out rest
      end
  end.

Definition format (template : string) (kwargs : list (string * string))
  : outcome string :=
  format_go kwargs Literal EmptyString template.

End PyStr.

(* ================================================================== *)
(** * src/document_parser.py *)
(* ================================================================== *)

Module Parser.
Import PyStr.

Record DocumentChunk := mkChunk {
  text : string;
  token_count : Z;
  chunk_index : Z;
  total_chunks : Z
}.

(** The two separators of [chunk_text]. *)
Definition para_sep : string := nl ++ nl.
Definition sent_sep : string := ". ".

(** The three local variables of the chunking loop. *)
Record loop_state := mkState {
  chunks : list string;
  current_chunk : list string;
  current_tokens : Z
}.

Definition init_state : loop_state := mkState [] [] 0.

(** [if current_chunk: chunks.append(sep.join(current_chunk) + suffix);
     current_chunk = []; current_tokens = 0]. *)
Definition flush (sep suffix : string) (st : loop_state) : loop_state :=
  match current_chunk st with
  | [] => st
  | _ :: _ =>
      mkState (chunks st ++ [join sep (current_chunk st) ++ suffix]) [] 0
  end.

(** [current_chunk.append(unit); current_tokens += unit_tokens]. *)
Definition push (unit : string) (unit_tokens : Z) (st : loop_state) : loop_state :=
  mkState (chunks st) (current_chunk st ++ [unit]) (current_tokens st + unit_tokens).

(** A chunk seen as the units joined into it. *)
Record piece := mkPiece {
  units : list string;
  sep : string;
  suffix : string
}.

Definition render (p : piece) : string := join (sep p) (units p) ++ suffix p.

(** Separators the chunker joins with: a blank line, or a period and a space
    (with or without a closing period). *)
Definition separator_policy (p : piece) : Prop :=
  (sep p = para_sep /\ suffix p = EmptyString) \/
  (sep p = sent_sep /\ (suffix p = "." \/ suffix p = EmptyString)).

Section WithTokenizer.

(** [len(self.encoding.encode(text))]: the tokenizer is external, and taken
    to give a count for every text. *)
Variable count_tokens : string -> nat.
(** [self.max_tokens_per_chunk]. *)
Variable max_tokens_per_chunk : Z.

Definition tokens (s : string) : Z := Z.of_nat (count_tokens s).

(** Body of [for sentence in sentences] (lines 116-131). *)
Definition sentence_step (st : loop_state) (sentence : string) : loop_state :=
  let sentence := strip sentence in
  if negb (nonempty sentence) then st
  else
    let sentence_tokens := tokens sentence in
    let st :=
      if current_tokens st + sentence_tokens >? max_tokens_per_chunk
      then flush sent_sep "." st
      else st in
    push sentence sentence_tokens st.

(** Body of [for para in paragraphs] (lines 102-143). *)
Definition paragraph_step (st : loop_state) (para : string) : loop_state :=
  let para_tokens := tokens para in
  if para_tokens >? max_tokens_per_chunk then
    let st := flush para_sep EmptyString st in
    fold_left sentence_step (split sent_sep para) st
  else
    let st :=
      if current_tokens st + para_tokens >? max_tokens_per_chunk
      then flush para_sep EmptyString st
      else st in
    push para para_tokens st.

(** Lines 145-148: the trailing buffer, joined by a blank line unless its
    first element contains a newline. *)
Definition final_flush (st : loop_state) : list string :=
  match current_chunk st with
  | [] => chunks st
  | first :: _ =>
      let chunk_text :=
        if negb (contains_char (ascii_of_nat 10) first)
        then join para_sep (current_chunk st)
        else join sent_sep (current_chunk st) in
      chunks st ++ [chunk_text]
  end.

(** Lines 96-148: the texts of the chunks when the shortcut does not apply. *)
Definition chunk_strings (text : string) : list string :=
  final_flush (fold_left paragraph_step (split para_sep text) init_state).

(** Lines 150-160: [enumerate] and re-tokenize. *)
Fixpoint stamp (total : Z) (i : Z) (l : list string) : list DocumentChunk :=
  match l with
  | [] => []
  | c :: l' => mkChunk c (tokens c) i total :: stamp total (i + 1) l'
  end.

Definition chunk_text (text : string) : list DocumentChunk :=
  let total_tokens := tokens text in
  if total_tokens <=? max_tokens_per_chunk then
    [mkChunk text total_tokens 0 1]
  else
    let chunks := chunk_strings text in
    stamp (Z.of_nat (List.length chunks)) 0 chunks.

(** ** Specification-side vocabulary for the segmentation claims *)

(** The stripped, non-blank sentences of a paragraph (lines 115-119). *)
Definition sentence_units (para : string) : list string :=
  filter nonempty (map strip (split sent_sep para)).

(** The units a paragraph contributes: itself, or its sentences when it alone
    exceeds the budget. *)
Definition para_units (para : string) : list string :=
  if tokens para >? max_tokens_per_chunk then sentence_units para else [para].

(** The ordered units of the source text. *)
Definition source_units (text : string) : list string :=
  if tokens text <=? max_tokens_per_chunk then split para_sep text
  else flat_map para_units (split para_sep text).

(** Every sentence of every paragraph of the source. *)
Definition atomic_units (text : string) : list string :=
  flat_map sentence_units (split para_sep text).

Definition sum_tokens (us : list string) : Z :=
  fold_right (fun u a => tokens u + a) 0 us.

(** The segmentation budget as the specification words it: a chunk is within
    budget unless it is one sentence of the source, emitted whole, whose own
    count exceeds the budget. *)
Definition budget_claim (text : string) : Prop :=
  forall c, In c (chunk_text text) ->
    tokens (Parser.text c) <= max_tokens_per_chunk \/
    exists s, In s (atomic_units text) /\ tokens s > max_tokens_per_chunk /\
              (Parser.text c = s \/ Parser.text c = s ++ ".").

(** ** Loop invariant of the chunking loops *)

(** A group of units respects the budget when the counts of its units sum to
    at most the budget, or when it holds no more than one unit. *)
Definition budget_ok (us : list string) : Prop :=
  sum_tokens us <= max_tokens_per_chunk \/ (List.length us <= 1)%nat.

Definition good (p : piece) : Prop :=
  units p <> [] /\ separator_policy p /\ budget_ok (units p).

(** [Inv done st]: the emitted chunks followed by the buffer are exactly the
    units [done] consumed so far, and the running count is the buffer's. *)
Definition Inv (done : list string) (st : loop_state) : Prop :=
  exists pieces,
    chunks st = map render pieces /\
    Forall good pieces /\
    (concat (map units pieces) ++ current_chunk st)%list = done /\
    current_tokens st = sum_tokens (current_chunk st) /\
    budget_ok (current_chunk st).

End WithTokenizer.

(** A byte-level encoding without merges: one token per character. *)
Definition char_tokenizer (s : string) : nat := String.length s.

(** A tokenizer for which joining is free: one token per letter or digit. *)
Definition is_alnum (c : ascii) : bool :=
  let n := nat_of_ascii c in
  (((48 <=? n) && (n <=? 57)) || ((65 <=? n) && (n <=? 90))
   || ((97 <=? n) && (n <=? 122)))%nat.

Fixpoint alnum_tokenizer (s : string) : nat :=
  match s with
  | EmptyString => O
  | String c s' => ((if is_alnum c then 1 else 0) + alnum_tokenizer s')%nat
  end.

(** Three one-letter paragraphs separated by blank lines. *)
Definition three_paragraphs : string :=
  "a" ++ nl ++ nl ++ "b" ++ nl ++ nl ++ "c".

End Parser.


(* ================================================================== *)
(** * src/evaluator.py *)
(* ================================================================== *)

Module Evaluator.
Import PyStr Parser.

(** ** DocumentEvaluation *)

Record DocumentEvaluation := mkEval {
  relevance : Q;
  factual_accuracy : Q;
  clarity : Q;
  hallucination : Q;
  style_match : Q;
  rag_usability : Q;
  citation_quality : Q
}.

(** The seven score dimensions, in the order of the dictionaries. *)
Inductive dimension : Type :=
| Relevance | FactualAccuracy | Clarity | Hallucination
| StyleMatch | RagUsability | CitationQuality.

Definition dimensions : list dimension :=
  [Relevance; FactualAccuracy; Clarity; Hallucination;
   StyleMatch; RagUsability; CitationQuality].

Definition key (d : dimension) : string :=
  match d with
  | Relevance => "relevance"
  | FactualAccuracy => "factual_accuracy"
  | Clarity => "clarity"
  | Hallucination => "hallucination"
  | StyleMatch => "style_match"
  | RagUsability => "rag_usability"
  | CitationQuality => "citation_quality"
  end.

(** [getattr(evaluation, key)]. *)
Definition getattr (e : DocumentEvaluation) (d : dimension) : Q :=
  match d with
  | Relevance => relevance e
  | FactualAccuracy => factual_accuracy e
  | Clarity => clarity e
  | Hallucination => hallucination e
  | StyleMatch => style_match e
  | RagUsability => rag_usability e
  | CitationQuality => citation_quality e
  end.

Definition to_dict (e : DocumentEvaluation) : list (string * Q) :=
  map (fun d => (key d, getattr e d)) dimensions.

(** [data.get(key, default)]. *)
Definition dict_get {A : Type} (data : list (string * A)) (k : string) (default : A) : A :=
  match lookup k data with
  | Some v => v
  | None => default
  end.

Definition from_dict (data : list (string * Q)) : DocumentEvaluation :=
  mkEval (dict_get data "relevance" 0%Q)
         (dict_get data "factual_accuracy" 0%Q)
         (dict_get data "clarity" 0%Q)
         (dict_get data "hallucination" 0%Q)
         (dict_get data "style_match" 0%Q)
         (dict_get data "rag_usability" 0%Q)
         (dict_get data "citation_quality" 0%Q).

Definition zero_score : DocumentEvaluation := mkEval 0 0 0 0 0 0 0.

(** [sum(weight for _, weight in evaluations)]. *)
Definition total_weight (evaluations : list (DocumentEvaluation * Z)) : Z :=
  fold_left (fun acc ew => acc + snd ew) evaluations 0.

(** The dictionary [weighted_sums]: one accumulator per dimension. *)
Definition sums := dimension -> Q.

Definition dimension_eqb (a b : dimension) : bool :=
  match a, b with
  | Relevance, Relevance | FactualAccuracy, FactualAccuracy
  | Clarity, Clarity | Hallucination, Hallucination
  | StyleMatch, StyleMatch | RagUsability, RagUsability
  | CitationQuality, CitationQuality => true
  | _, _ => false
  end.

Definition set_sum (ws : sums) (d : dimension) (v : Q) : sums :=
  fun d' => if dimension_eqb d d' then v else ws d'.

(** [for key in weighted_sums:
       weighted_sums[key] += getattr(evaluation, key) * weight]. *)
Definition add_sample (ws : sums) (ew : DocumentEvaluation * Z) : sums :=
  fold_left
    (fun ws d => set_sum ws d (ws d + getattr (fst ew) d * inject_Z (snd ew))%Q)
    dimensions ws.

Definition weighted_average (evaluations : list (DocumentEvaluation * Z))
  : outcome DocumentEvaluation :=
  match evaluations with
  | [] => Returns (mkEval 0 0 0 0 0 0 0)
  | _ :: _ =>
      let total_weight := total_weight evaluations in
      if total_weight =? 0 then Returns (mkEval 0 0 0 0 0 0 0)
      else
        let weighted_sums := fold_left add_sample evaluations (fun _ => 0%Q) in
        let w := inject_Z total_weight in
        Returns (mkEval (weighted_sums Relevance / w)
                        (weighted_sums FactualAccuracy / w)
                        (weighted_sums Clarity / w)
                        (weighted_sums Hallucination / w)
                        (weighted_sums StyleMatch / w)
                        (weighted_sums RagUsability / w)
                        (weighted_sums CitationQuality / w))
  end.

(** The aggregation formula of the specification, for one dimension. *)
Definition weighted_mean (d : dimension) (evaluations : list (DocumentEvaluation * Z)) : Q :=
  (fold_right (fun ew acc => getattr (fst ew) d * inject_Z (snd ew) + acc) 0 evaluations
   / inject_Z (fold_right (fun ew acc => snd ew + acc)%Z 0%Z evaluations))%Q.

(** ** LLMEvaluator *)

Definition EVALUATION_PROMPT : string :=
  ("You are an expert evaluator assessing document quality for use with Large Language Models (LLMs) and Retrieval-Augmented Generation (RAG) systems." ++ nl ++
   nl ++
   "Evaluate the following document text on these criteria (score 0-5 for each):" ++ nl ++
   nl ++
   "1. **Relevance** (0-5): How relevant and focused is the content? Does it stay on topic?" ++ nl ++
   "2. **Factual Accuracy** (0-5): Does the content appear factually accurate and well-researched?" ++ nl ++
   "3. **Clarity** (0-5): Is the writing clear, well-structured, and easy to understand?" ++ nl ++
   "4. **Hallucination Risk** (0-5): How likely is this content to cause LLM hallucinations? (0=very likely, 5=very unlikely)" ++ nl ++
   "5. **Style Match** (0-5): Is the writing style consistent and professional?" ++ nl ++
   "6. **RAG Usability** (0-5): How useful would this be as context for a RAG system? Is it well-structured for retrieval?" ++ nl ++
   "7. **Citation Quality** (0-5): Are sources, references, and citations properly included and formatted?" ++ nl ++
   nl ++
   "Respond ONLY with a JSON object in this exact format:" ++ nl ++
   "{" ++ nl ++
   "  " ++ dq ++ "relevance" ++ dq ++ ": <score>," ++ nl ++
   "  " ++ dq ++ "factual_accuracy" ++ dq ++ ": <score>," ++ nl ++
   "  " ++ dq ++ "clarity" ++ dq ++ ": <score>," ++ nl ++
   "  " ++ dq ++ "hallucination" ++ dq ++ ": <score>," ++ nl ++
   "  " ++ dq ++ "style_match" ++ dq ++ ": <score>," ++ nl ++
   "  " ++ dq ++ "rag_usability" ++ dq ++ ": <score>," ++ nl ++
   "  " ++ dq ++ "citation_quality" ++ dq ++ ": <score>" ++ nl ++
   "}" ++ nl ++
   nl ++
   "Document text to evaluate:" ++ nl ++
   nl ++
   "{text}")%string.


(** What [json.loads] gives back: an object, whose values the model takes to
    be numbers, or a value of another Python type. *)
Inductive json : Type :=
| JObject (data : list (string * Q))
| JOther (type_name : string).

(** [DocumentEvaluation.from_dict(data)] on whatever was parsed: only a
    [dict] has a [get] method. *)
Definition from_parsed (data : json) : outcome DocumentEvaluation :=
  match data with
  | JObject d => Returns (from_dict d)
  | JOther ty =>
      Raises (AttributeError ("'" ++ ty ++ "' object has no attribute 'get'"))
  end.

(** The observable effects of an evaluation: the prompts sent to the scoring
    service, the seconds slept, and the warnings printed (chunk number, total
    and exception). *)
Record world := mkWorld {
  requests : list string;
  slept : list Z;
  printed : list (Z * Z * exn)
}.

Definition initial_world : world := mkWorld [] [] [].

Definition sleep (seconds : Z) (w : world) : world :=
  mkWorld (requests w) (slept w ++ [seconds]) (printed w).

Definition print_warning (number total : Z) (e : exn) (w : world) : world :=
  mkWorld (requests w) (slept w) (printed w ++ [(number, total, e)]).

(** The [except] clauses of [evaluate_chunk], in their order. *)
Inductive handler : Type :=
| OnRateLimit | OnTimeout | OnApiOrJson | OnOther.

Definition dispatch (e : exn) : handler :=
  match e with
  | RateLimitError _ => OnRateLimit
  | APITimeoutError _ => OnTimeout
  | APIError _ | JSONDecodeError _ => OnApiOrJson
  | _ => OnOther
  end.

Section WithScorer.

(** [self.client.chat.completions.create(...)] followed by
    [response.choices[0].message.content]: the reply to the n-th request
    (counting from 0) carrying the given prompt. *)
Variable create : nat -> string -> outcome string.
(** [json.loads]. *)
Variable json_loads : string -> outcome json.
(** [self.max_retries]. *)
Variable max_retries : Z.

(** The [try] block of lines 155-177. *)
Definition attempt_once (prompt : string) (w : world)
  : outcome DocumentEvaluation * world :=
  let reply := create (List.length (requests w)) prompt in
  let w := mkWorld (requests w ++ [prompt]) (slept w) (printed w) in
  match reply with
  | Raises e => (Raises e, w)
  | Returns content =>
      match json_loads content with
      | Raises e => (Raises e, w)
      | Returns data => (from_parsed data, w)
      end
  end.

(** [for attempt in range(self.max_retries)] (lines 154-205); [remaining]
    counts the iterations left. *)
Fixpoint retry_loop (remaining : nat) (attempt : Z) (prompt : string) (w : world)
  : outcome (option DocumentEvaluation) * world :=
  match remaining with
  | O => (Returns None, w)
  | S remaining' =>
      match attempt_once prompt w with
      | (Returns evaluation, w) => (Returns (Some evaluation), w)
      | (Raises e, w) =>
          match dispatch e with
          | OnRateLimit =>
              if attempt <? max_retries - 1
              then retry_loop remaining' (attempt + 1) prompt (sleep (2 ^ attempt) w)
              else (Raises (Exception ("Rate limit exceeded after "
                                       ++ str_of_int max_retries
                                       ++ " retries: " ++ exn_str e)), w)
          | OnTimeout =>
              if attempt <? max_retries - 1
              then retry_loop remaining' (attempt + 1) prompt (sleep 1 w)
              else (Raises (Exception ("API timeout after "
                                       ++ str_of_int max_retries
                                       ++ " retries: " ++ exn_str e)), w)
          | OnApiOrJson =>
              if attempt <? max_retries - 1
              then retry_loop remaining' (attempt + 1) prompt (sleep 1 w)
              else (Raises (Exception ("API error after "
                                       ++ str_of_int max_retries
                                       ++ " retries: " ++ exn_str e)), w)
          | OnOther =>
              (Raises (Exception ("Unexpected error during evaluation: "
                                  ++ exn_str e)), w)
          end
      end
  end.

(** [evaluate_chunk]: the prompt is formatted first (line 152, outside the
    [try]), then the loop runs. *)
Definition evaluate_chunk (chunk : DocumentChunk) (w : world)
  : outcome (option DocumentEvaluation) * world :=
  match format EVALUATION_PROMPT [("text", text chunk)] with
  | Raises e => (Raises e, w)
  | Returns prompt => retry_loop (Z.to_nat max_retries) 0 prompt w
  end.

(** One iteration of the loop of [evaluate_chunks] (lines 224-231), over the
    method it calls on the chunk. *)
Definition chunk_step
    (evaluate : DocumentChunk -> world -> outcome (option DocumentEvaluation) * world)
    (st : list (DocumentEvaluation * Z) * world) (chunk : DocumentChunk)
  : list (DocumentEvaluation * Z) * world :=
  let (evaluations_with_weights, w) := st in
  match evaluate chunk w with
  | (Returns (Some evaluation), w) =>
      ((evaluations_with_weights ++ [(evaluation, token_count chunk)])%list, w)
  | (Returns None, w) => (evaluations_with_weights, w)
  | (Raises e, w) =>
      (evaluations_with_weights,
       print_warning (chunk_index chunk + 1) (total_chunks chunk) e w)
  end.

(** Lines 222-237 over the method called on every chunk. *)
Definition evaluate_chunks_with
    (evaluate : DocumentChunk -> world -> outcome (option DocumentEvaluation) * world)
    (chunks : list DocumentChunk) (w : world)
  : outcome DocumentEvaluation * world :=
  let (evaluations_with_weights, w) := fold_left (chunk_step evaluate) chunks ([], w) in
  match evaluations_with_weights with
  | [] => (Raises (Exception "Failed to evaluate any chunks in the document"), w)
  | _ :: _ => (weighted_average evaluations_with_weights, w)
  end.

(** [evaluate_chunks]: the loop over [self.evaluate_chunk]. *)
Definition evaluate_chunks (chunks : list DocumentChunk) (w : world)
  : outcome DocumentEvaluation * world :=
  evaluate_chunks_with evaluate_chunk chunks w.

(** The outcome of every chunk in turn, as the loop meets them. *)
Fixpoint chunk_outcomes
    (evaluate : DocumentChunk -> world -> outcome (option DocumentEvaluation) * world)
    (chunks : list DocumentChunk) (w : world)
  : list (outcome (option DocumentEvaluation)) :=
  match chunks with
  | [] => []
  | chunk :: rest =>
      let (r, w1) := evaluate chunk w in
      let w2 := match r with
                | Raises e => print_warning (chunk_index chunk + 1) (total_chunks chunk) e w1
                | Returns _ => w1
                end in
      r :: chunk_outcomes evaluate rest w2
  end.

(** The (evaluation, weight) pairs of the chunks whose evaluation returned
    a score, in chunk order. *)
Fixpoint survivors (chunks : list DocumentChunk)
    (outcomes : list (outcome (option DocumentEvaluation)))
  : list (DocumentEvaluation * Z) :=
  match chunks, outcomes with
  | chunk :: chunks', Returns (Some evaluation) :: outcomes' =>
      (evaluation, token_count chunk) :: survivors chunks' outcomes'
  | _ :: chunks', _ :: outcomes' => survivors chunks' outcomes'
  | _, _ => []
  end.

End WithScorer.

(** The exponential backoffs slept from attempt [attempt] on, [n] of them. *)
Fixpoint backoffs (attempt : Z) (n : nat) : list Z :=
  match n with
  | O => []
  | S n' => 2 ^ attempt :: backoffs (attempt + 1) n'
  end.

(** An object carries exactly the seven score keys. *)
Definition exact_keys (data : list (string * Q)) : bool :=
  forallb (fun d => match lookup (key d) data with Some _ => true | None => false end)
          dimensions
  && forallb (fun kv => existsb (fun d => String.eqb (fst kv) (key d)) dimensions)
             data.

(** ** Scoring services used in the concrete runs *)

(** A service that answers every request with a rate-limit error. *)
Definition always_rate_limited (n : nat) (prompt : string) : outcome string :=
  Raises (RateLimitError "429 Too Many Requests").

(** A service whose requests 1, 2 and 3 are rate limited and whose other
    requests are answered: with three attempts per chunk, the second of three
    chunks exhausts its attempts and the other two are scored. *)
Definition second_chunk_rate_limited (n : nat) (prompt : string) : outcome string :=
  if ((1 <=? n) && (n <=? 3))%nat
  then Raises (RateLimitError "429 Too Many Requests")
  else Returns "scores".

Definition fives : DocumentEvaluation := mkEval 5 5 5 5 5 5 5.

Definition sample_chunk : DocumentChunk := mkChunk "Some text." 3 0 1.

Definition all_fives : list (string * Q) :=
  map (fun d => (key d, 5%Q)) dimensions.

(** A parser that reads every reply as the object with all seven keys at 5. *)
Definition loads_all_fives (content : string) : outcome json :=
  Returns (JObject all_fives).

(** A parser that reads every reply as the empty object. *)
Definition loads_empty_object (content : string) : outcome json :=
  Returns (JObject []).

Definition answers (content : string) (n : nat) (prompt : string) : outcome string :=
  Returns content.

End Evaluator.

(* ================================================================== *)
(** * src/output.py *)
(* ================================================================== *)

Module Output.
Import PyStr Evaluator.

Record EvaluationResult := mkResult {
  filename : string;
  evaluation : option DocumentEvaluation;
  status : string;
  error_message : option string
}.

(** A value of the flat dictionary: a [str] or a number. *)
Inductive cell : Type :=
| CStr (s : string)
| CNum (q : Q).

(** [result.update(other)]: existing keys keep their place, new keys are
    appended. *)
Fixpoint set_item (d : list (string * cell)) (k : string) (v : cell)
  : list (string * cell) :=
  match d with
  | [] => [(k, v)]
  | (k', v') :: d' =>
      if String.eqb k k' then (k', v) :: d' else (k', v') :: set_item d' k v
  end.

Definition update (d other : list (string * cell)) : list (string * cell) :=
  fold_left (fun d kv => set_item d (fst kv) (snd kv)) other d.

Definition to_flat_dict (r : EvaluationResult) : list (string * cell) :=
  let result := [("filename", CStr (filename r))] in
  let result :=
    match evaluation r with
    | Some e => update result (map (fun kv => (fst kv, CNum (snd kv))) (to_dict e))
    | None =>
        update result
          [("relevance", CNum 0); ("factual_accuracy", CNum 0);
           ("clarity", CNum 0); ("hallucination", CNum 0);
           ("style_match", CNum 0); ("rag_usability", CNum 0);
           ("citation_quality", CNum 0)]
    end in
  let result := set_item result "status" (CStr (status r)) in
  set_item result "error_message"
    (CStr (match error_message r with
           | Some m => if nonempty m then m else EmptyString
           | None => EmptyString
           end)).

Definition FIELDNAMES : list string :=
  ["filename"; "relevance"; "factual_accuracy"; "clarity"; "hallucination";
   "style_match"; "rag_usability"; "citation_quality"; "status";
   "error_message"].

(** [csv.DictWriter.writerow]: the cells of a row, one per field name, a
    missing key giving the empty string.  Quoting and line endings are not
    modelled. *)
Definition csv_cell (d : list (string * cell)) (k : string) : cell :=
  dict_get d k (CStr EmptyString).

Definition csv_row (d : list (string * cell)) : list cell :=
  map (csv_cell d) FIELDNAMES.

(** [CSVFormatter.format]: the header and one row per result. *)
Definition csv_format (results : list EvaluationResult) : list (list cell) :=
  map CStr FIELDNAMES :: map (fun r => csv_row (to_flat_dict r)) results.

(** Two cells show the same value: equal strings, or equal numbers. *)
Definition same_cell (a b : cell) : Prop :=
  match a, b with
  | CStr x, CStr y => x = y
  | CNum x, CNum y => (x == y)%Q
  | _, _ => False
  end.

End Output.

(* ================================================================== *)
(** * main.py *)
(* ================================================================== *)

Module Main.
Import PyStr Parser Evaluator Output.

Section WithServices.

Variable count_tokens : string -> nat.
Variable max_tokens_per_chunk : Z.
Variable create : nat -> string -> outcome string.
Variable json_loads : string -> outcome json.
Variable max_retries : Z.

(** [parser.parse(doc_path)]: [extract_text] reads the file, so its outcome
    is an input here. *)
Definition parse (extracted : outcome string) : outcome (list DocumentChunk) :=
  match extracted with
  | Raises e => Raises e
  | Returns text => Returns (chunk_text count_tokens max_tokens_per_chunk text)
  end.

Definition evaluate_document (doc_path : string) (extracted : outcome string)
    (w : world) : EvaluationResult * world :=
  match parse extracted with
  | Raises e => (mkResult doc_path None "error" (Some (exn_str e)), w)
  | Returns chunks =>
      match evaluate_chunks create json_loads max_retries chunks w with
      | (Returns evaluation, w) =>
          (mkResult doc_path (Some evaluation) "success" None, w)
      | (Raises e, w) =>
          (mkResult doc_path None "error" (Some (exn_str e)), w)
      end
  end.

End WithServices.

End Main.

(* ================================================================== *)
(** * Further code of the repository *)
(* ================================================================== *)

(** ** More [str] operations *)

Module PyText.
Import PyStr.

(** [str.lower] on the code points below 256: the letters A-Z and the
    accented capitals 192-222 (but the multiplication sign, 215) move up by
    32. *)
Definition isupper (c : ascii) : bool :=
  let n := nat_of_ascii c in
  (((65 <=? n) && (n <=? 90))
   || ((192 <=? n) && (n <=? 222) && negb (n =? 215)))%nat.

Definition lower_char (c : ascii) : ascii :=
  if isupper c then ascii_of_nat (nat_of_ascii c + 32) else c.

Fixpoint lower (s : string) : string :=
  match s with
  | EmptyString => EmptyString
  | String c s' => String (lower_char c) (lower s')
  end.

(** [x in xs] for a list of [str]. *)
Fixpoint str_in (x : string) (xs : list string) : bool :=
  match xs with
  | [] => false
  | y :: xs' => String.eqb x y || str_in x xs'
  end.

(** Truthiness of an optional [str]: neither [None] nor empty. *)
Definition truthy (v : option string) : bool :=
  match v with
  | Some s => nonempty s
  | None => false
  end.

(** [a or b]. *)
Definition py_or (a b : option string) : option string :=
  if truthy a then a else b.

End PyText.

(** ** src/document_parser.py: [extract_text] and [parse] *)

Module Extract.
Import PyStr PyText Parser.

(** What the file system and [docx.Document] say about a path: whether it
    exists, its [str] and its suffix, and the paragraph texts of the document
    or the exception raised while opening it. *)
Record docx_file := mkFile {
  path : string;
  exists_ : bool;
  suffix : string;
  document : outcome (list string)
}.

(** [extract_text] (lines 48-59).  [FileNotFoundError] is an [OtherError]. *)
Definition extract_text (f : docx_file) : outcome string :=
  if negb (exists_ f) then
    Raises (OtherError ("File not found: " ++ path f))
  else if negb (String.eqb (lower (suffix f)) ".docx") then
    Raises (ValueError ("File must be a .docx file: " ++ path f))
  else
    match document f with
    | Returns texts =>
        let paragraphs := filter (fun t => nonempty (strip t)) texts in
        Returns (join para_sep paragraphs)
    | Raises e =>
        Raises (ValueError ("Failed to parse Word document: " ++ exn_str e))
    end.

(** [DocumentParser.parse] (lines 176-177). *)
Definition parse (count_tokens : string -> nat) (max_tokens_per_chunk : Z)
    (f : docx_file) : outcome (list DocumentChunk) :=
  match extract_text f with
  | Raises e => Raises e
  | Returns text => Returns (chunk_text count_tokens max_tokens_per_chunk text)
  end.

Definition newline_free (s : string) : Prop :=
  contains_char (ascii_of_nat 10) s = false.

(** A [.docx] file that exists and opens, with the given paragraph texts. *)
Definition readable (name : string) (texts : list string) : docx_file :=
  mkFile name true ".docx" (Returns texts).

End Extract.

(** ** Greedy grouping *)

Module Grouping.
Import PyStr Parser.

Section WithTokenizer.

Variable count_tokens : string -> nat.
Variable max_tokens_per_chunk : Z.

(** No group could have taken the first unit of the group after it. *)
Fixpoint greedy (groups : list (list string)) : Prop :=
  match groups with
  | g1 :: ((g2 :: _) as rest) =>
      sum_tokens count_tokens g1 + tokens count_tokens (hd EmptyString g2)
        > max_tokens_per_chunk
      /\ greedy rest
  | _ => True
  end.

(** Every paragraph fits the budget on its own and holds no newline. *)
Definition plain_paragraphs (text : string) : Prop :=
  Forall (fun p => tokens count_tokens p <= max_tokens_per_chunk /\
                   contains_char (ascii_of_nat 10) p = false)
         (split para_sep text).

(** No paragraph exceeds the budget on its own: the sentence loop of lines
    113-131 is never entered. *)
Definition no_oversized_paragraph (text : string) : Prop :=
  Forall (fun p => tokens count_tokens p <= max_tokens_per_chunk)
         (split para_sep text).

(** [current_chunk] when the paragraph loop ends (line 145). *)
Definition trailing_buffer (text : string) : list string :=
  current_chunk
    (fold_left (paragraph_step count_tokens max_tokens_per_chunk)
               (split para_sep text) init_state).

(** The final flush of line 147 joins by a blank line, or has one unit to
    emit: the first unit of a buffer of several holds no newline. *)
Definition blank_line_final_flush (text : string) : bool :=
  match trailing_buffer text with
  | first :: _ :: _ => negb (contains_char (ascii_of_nat 10) first)
  | _ => true
  end.

(** The completeness claim as the specification words it: one way of
    re-joining the chunk texts in index order gives back, for every text, the
    sequence of its units, for a chosen reading [units_of] of the paragraphs
    or sentences of a text. *)
Definition completeness_claim (units_of : string -> list string) : Prop :=
  exists rejoin : list string -> list string,
    forall text : string,
      rejoin (map Parser.text (chunk_text count_tokens max_tokens_per_chunk text))
      = units_of text.

(** Invariant of the paragraph loop while no paragraph is over budget. *)
Definition Fit (done : list string) (st : loop_state) : Prop :=
  exists groups,
    chunks st = map (join para_sep) groups /\
    Forall (fun g => g <> []) groups /\
    (concat groups ++ current_chunk st)%list = done /\
    current_tokens st = sum_tokens count_tokens (current_chunk st) /\
    match current_chunk st with
    | [] => groups = []
    | _ :: _ => greedy (groups ++ [current_chunk st])
    end.

End WithTokenizer.

(** One paragraph of two sentences, and two paragraphs: with one token per
    character and a budget of 6 both give the chunks [aaaa.] and [bbbb]. *)
Definition two_sentences : string := "aaaa. bbbb".
Definition two_paragraphs : string := "aaaa." ++ nl ++ nl ++ "bbbb".

(** Three paragraphs, the second with a line break of its own, ... *)
Definition line_break_paragraph : string :=
  "dddddd" ++ nl ++ nl ++ "a" ++ nl ++ "b" ++ nl ++ nl ++ "c".
(** ... and the two paragraphs its chunks read as. *)
Definition line_break_merged : string :=
  "dddddd" ++ nl ++ nl ++ "a" ++ nl ++ "b. c".

(** A paragraph with a line break of its own that does not head the trailing
    buffer. *)
Definition line_break_first : string :=
  "a" ++ nl ++ "b" ++ nl ++ nl ++ "cc" ++ nl ++ nl ++ "dddddd".

End Grouping.

(** ** Messages of the retry loop *)

Module Retry.
Import PyStr Evaluator.

(** How the terminal failure of a timeout or of another API or JSON error
    begins (lines 193 and 200). *)
Definition transient_label (e : exn) : string :=
  match dispatch e with
  | OnTimeout => "API timeout after "
  | _ => "API error after "
  end.

Definition transient (e : exn) : Prop :=
  dispatch e = OnTimeout \/ dispatch e = OnApiOrJson.

(** A service that answers every request with a timeout. *)
Definition always_times_out (n : nat) (prompt : string) : outcome string :=
  Raises (APITimeoutError "Request timed out.").

(** What the loop does, in the order it does it: a call of [create] with a
    prompt, or a [time.sleep]. *)
Inductive event : Type :=
| Requested (prompt : string)
| Slept (seconds : Z).

Definition requests_of (log : list event) : list string :=
  flat_map (fun ev => match ev with Requested p => [p] | Slept _ => [] end) log.

Definition sleeps_of (log : list event) : list Z :=
  flat_map (fun ev => match ev with Requested _ => [] | Slept s => [s] end) log.

(** A request, then a sleep and a request for every entry of [sl]. *)
Definition alternating (prompt : string) (sl : list Z) : list event :=
  Requested prompt :: flat_map (fun s => [Slept s; Requested prompt]) sl.

Section WithScorer.

Variable create : nat -> string -> outcome string.
Variable json_loads : string -> outcome json.
Variable max_retries : Z.

(** The loop of lines 154-205 once more, as the sequence of its requests and
    sleeps: the [try] block sends a request, and each handler that retries
    sleeps before [continue]. *)
Fixpoint retry_events (remaining : nat) (attempt : Z) (prompt : string) (w : world)
  : list event :=
  match remaining with
  | O => []
  | S remaining' =>
      match attempt_once create json_loads prompt w with
      | (Returns _, _) => [Requested prompt]
      | (Raises e, w) =>
          match dispatch e with
          | OnRateLimit =>
              if attempt <? max_retries - 1
              then Requested prompt :: Slept (2 ^ attempt)
                   :: retry_events remaining' (attempt + 1) prompt
                                   (sleep (2 ^ attempt) w)
              else [Requested prompt]
          | OnTimeout | OnApiOrJson =>
              if attempt <? max_retries - 1
              then Requested prompt :: Slept 1
                   :: retry_events remaining' (attempt + 1) prompt (sleep 1 w)
              else [Requested prompt]
          | OnOther => [Requested prompt]
          end
      end
  end.

End WithScorer.

End Retry.

(** ** src/config.py *)

Module Config.
Import PyStr PyText.

Record AzureOpenAIConfig := mkConfig {
  api_key : string;
  endpoint : string;
  deployment : string;
  api_version : string
}.

Definition DEFAULT_API_VERSION : string := "2024-02-15-preview".

(** [all([a, b, c])], giving the three strings when it holds. *)
Definition all_set (a b c : option string) : option (string * string * string) :=
  match a, b, c with
  | Some x, Some y, Some z =>
      if nonempty x && nonempty y && nonempty z then Some (x, y, z) else None
  | _, _, _ => None
  end.

(** [if not v: missing.append(name)]. *)
Definition missing_if (v : option string) (name : string) : list string :=
  if truthy v then [] else [name].

Section WithEnvironment.

(** [os.getenv(name)], once [load_dotenv()] has run. *)
Variable getenv : string -> option string.

(** [os.getenv(name, default)]. *)
Definition getenv_default (name default : string) : string :=
  match getenv name with
  | Some v => v
  | None => default
  end.

(** [AzureOpenAIConfig.from_env] (lines 19-47). *)
Definition from_env : outcome AzureOpenAIConfig :=
  let api_key := getenv "AZURE_OPENAI_API_KEY" in
  let endpoint := getenv "AZURE_OPENAI_ENDPOINT" in
  let deployment := getenv "AZURE_OPENAI_DEPLOYMENT" in
  let api_version := getenv_default "AZURE_OPENAI_API_VERSION" DEFAULT_API_VERSION in
  match all_set api_key endpoint deployment with
  | None =>
      let missing :=
        (missing_if api_key "AZURE_OPENAI_API_KEY"
         ++ missing_if endpoint "AZURE_OPENAI_ENDPOINT"
         ++ missing_if deployment "AZURE_OPENAI_DEPLOYMENT")%list in
      Raises (ValueError ("Missing required environment variables: "
                          ++ join ", " missing
                          ++ ". Set them in environment or create a .env file."))
  | Some (k, e, d) => Returns (mkConfig k e d api_version)
  end.

(** [AzureOpenAIConfig.from_args] (lines 50-99). *)
Definition from_args (api_key endpoint deployment api_version : option string)
  : outcome AzureOpenAIConfig :=
  let final_api_key := py_or api_key (getenv "AZURE_OPENAI_API_KEY") in
  let final_endpoint := py_or endpoint (getenv "AZURE_OPENAI_ENDPOINT") in
  let final_deployment := py_or deployment (getenv "AZURE_OPENAI_DEPLOYMENT") in
  let final_api_version :=
    match py_or api_version
            (Some (getenv_default "AZURE_OPENAI_API_VERSION" DEFAULT_API_VERSION)) with
    | Some v => v
    | None => EmptyString
    end in
  match all_set final_api_key final_endpoint final_deployment with
  | None =>
      let missing :=
        (missing_if final_api_key "api_key/AZURE_OPENAI_API_KEY"
         ++ missing_if final_endpoint "endpoint/AZURE_OPENAI_ENDPOINT"
         ++ missing_if final_deployment "deployment/AZURE_OPENAI_DEPLOYMENT")%list in
      Raises (ValueError ("Missing required configuration: "
                          ++ join ", " missing
                          ++ ". Provide via CLI arguments, environment variables, or .env file."))
  | Some (k, e, d) => Returns (mkConfig k e d final_api_version)
  end.

End WithEnvironment.

(** An environment that sets the three required variables. *)
Definition sample_env (name : string) : option string :=
  if String.eqb name "AZURE_OPENAI_API_KEY" then Some "env-key"
  else if String.eqb name "AZURE_OPENAI_ENDPOINT" then Some "https://env.example"
  else if String.eqb name "AZURE_OPENAI_DEPLOYMENT" then Some "env-deployment"
  else None.

End Config.

(** ** src/scanner.py: [scan_file] *)

Module Scanner.
Import PyStr PyText.

(** What [Path.exists], [Path.is_file], [str(path)] and [Path.suffix] give
    for a path. *)
Record file_path := mkPath {
  name : string;
  exists_ : bool;
  is_file : bool;
  suffix : string
}.

(** [self.extensions = extensions or ['.docx']]. *)
Definition DocumentScanner (extensions : option (list string)) : list string :=
  match extensions with
  | Some ((_ :: _) as l) => l
  | _ => [".docx"]
  end.

(** [scan_file] (lines 32-41).  [FileNotFoundError] is an [OtherError]. *)
Definition scan_file (extensions : list string) (p : file_path)
  : outcome (list file_path) :=
  if negb (exists_ p) then
    Raises (OtherError ("File not found: " ++ name p))
  else if negb (is_file p) then
    Raises (ValueError ("Path is not a file: " ++ name p))
  else if str_in (lower (suffix p)) extensions then
    Returns [p]
  else
    Raises (ValueError ("File must have one of these extensions: "
                        ++ join ", " extensions)).

End Scanner.

(** ** main.py: the document loop and its summary *)

Module Batch.
Import PyStr Parser Evaluator Output Main.

Section WithServices.

Variable count_tokens : string -> nat.
Variable max_tokens_per_chunk : Z.
Variable create : nat -> string -> outcome string.
Variable json_loads : string -> outcome json.
Variable max_retries : Z.

(** [for doc_path in documents: results.append(evaluate_document(...))]
    (lines 110-116); each document comes with the outcome of reading it. *)
Definition document_step (st : list EvaluationResult * world)
    (doc : string * outcome string) : list EvaluationResult * world :=
  let (results, w) := st in
  let (result, w) :=
    evaluate_document count_tokens max_tokens_per_chunk create json_loads
                      max_retries (fst doc) (snd doc) w in
  ((results ++ [result])%list, w).

Definition evaluate_documents (documents : list (string * outcome string))
    (w : world) : list EvaluationResult * world :=
  fold_left document_step documents ([], w).

End WithServices.

(** [sum(1 for r in results if r.status == 'success')] and
    [len(results) - successful] (lines 132-133). *)
Definition successful (results : list EvaluationResult) : Z :=
  Z.of_nat (List.length (filter (fun r => String.eqb (status r) "success") results)).

Definition failed (results : list EvaluationResult) : Z :=
  Z.of_nat (List.length results) - successful results.

End Batch.

(* ================================================================== *)
(** * Properties of the string primitives *)
(* ================================================================== *)

Module PyStrFacts.
Import PyStr.

Lemma append_nil_r (s : string) : s ++ EmptyString = s.
Proof. induction s as [|c s IH]; simpl; [reflexivity | now rewrite IH]. Qed.

Lemma append_assoc (a b c : string) : (a ++ b) ++ c = a ++ (b ++ c).
Proof. induction a as [|x a IH]; simpl; [reflexivity | now rewrite IH]. Qed.

Lemma length_append (a b : string) :
  String.length (a ++ b) = (String.length a + String.length b)%nat.
Proof. induction a as [|x a IH]; simpl; [reflexivity | now rewrite IH]. Qed.

Lemma prefix_split (p s : string) :
  prefix p s = true -> exists r, s = p ++ r.
Proof.
  revert s; induction p as [|a p IH]; intros s H.
  - now exists s.
  - destruct s as [|b s]; simpl in H; [discriminate|].
    destruct (ascii_dec a b) as [->|]; [|discriminate].
    destruct (IH _ H) as [r ->]. now exists r.
Qed.

Lemma split_go_skip (sp pre acc s : string) :
  split_go sp (String.length pre) acc (pre ++ s) = split_go sp 0 acc s.
Proof.
  induction pre as [|c pre IH]; simpl; [|exact IH].
  destruct s; reflexivity.
Qed.

Lemma split_go_nonnil (sp : string) (s : string) :
  forall k acc, split_go sp k acc s <> [].
Proof.
  induction s as [|c s IH]; intros k acc; cbn [split_go]; [discriminate|].
  destruct k; [|apply IH].
  destruct (prefix sp (String c s)); [discriminate | apply IH].
Qed.

Lemma join_cons (sp x : string) (l : list string) :
  l <> [] -> join sp (x :: l) = x ++ sp ++ join sp l.
Proof. destruct l; [congruence | reflexivity]. Qed.

(** Joining the pieces of a split gives the string back. *)
Lemma join_split_go (a : ascii) (sp' : string) (n : nat) :
  forall s acc, (String.length s <= n)%nat ->
    join (String a sp') (split_go (String a sp') 0 acc s) = acc ++ s.
Proof.
  induction n as [|n IH]; intros s acc Hn.
  - destruct s; simpl in Hn; [|lia]. simpl. now rewrite append_nil_r.
  - destruct s as [|c s]; [simpl; now rewrite append_nil_r|].
    cbn [split_go].
    destruct (prefix (String a sp') (String c s)) eqn:Hp.
    + destruct (prefix_split _ _ Hp) as [r Hr].
      change (String a sp' ++ r) with (String a (sp' ++ r)) in Hr.
      injection Hr as Hc Hs. subst c s.
      cbn [String.length pred].
      rewrite split_go_skip.
      rewrite join_cons by apply split_go_nonnil.
      rewrite IH.
      * reflexivity.
      * simpl in Hn. rewrite length_append in Hn. lia.
    + rewrite IH by (simpl in Hn; lia).
      rewrite append_assoc. reflexivity.
Qed.

Lemma join_split (a : ascii) (sp' s : string) :
  join (String a sp') (split (String a sp') s) = s.
Proof. unfold split. now rewrite (join_split_go a sp' (String.length s)). Qed.

End PyStrFacts.

(* ================================================================== *)
(** * The segmenter *)
(* ================================================================== *)

Module ParserFacts.
Import PyStr PyStrFacts Parser.
Local Open Scope list_scope.

Section Segmenter.

Variable count_tokens : string -> nat.
Variable max_tokens : Z.

Local Abbreviation tokens := (Parser.tokens count_tokens).
Local Abbreviation sum_tokens := (Parser.sum_tokens count_tokens).
Local Abbreviation budget_ok := (Parser.budget_ok count_tokens max_tokens).
Local Abbreviation good := (Parser.good count_tokens max_tokens).
Local Abbreviation Inv := (Parser.Inv count_tokens max_tokens).
Local Abbreviation sentence_step := (Parser.sentence_step count_tokens max_tokens).
Local Abbreviation paragraph_step := (Parser.paragraph_step count_tokens max_tokens).
Local Abbreviation para_units := (Parser.para_units count_tokens max_tokens).
Local Abbreviation chunk_strings := (Parser.chunk_strings count_tokens max_tokens).
Local Abbreviation chunk_text := (Parser.chunk_text count_tokens max_tokens).
Local Abbreviation source_units := (Parser.source_units count_tokens max_tokens).

Lemma sum_tokens_app (a b : list string) :
  sum_tokens (a ++ b) = sum_tokens a + sum_tokens b.
Proof.
  unfold Parser.sum_tokens.
  induction a as [|x a IH]; simpl; [reflexivity | rewrite IH; lia].
Qed.

Lemma Inv_init : Inv [] init_state.
Proof.
  exists []. simpl. repeat split; auto. right; simpl; lia.
Qed.

Lemma flush_current (sp suf : string) (st : loop_state) :
  current_chunk (flush sp suf st) = [].
Proof. unfold flush. destruct (current_chunk st) eqn:E; [exact E | reflexivity]. Qed.

Lemma flush_tokens (sp suf : string) (done : list string) (st : loop_state) :
  Inv done st -> current_tokens (flush sp suf st) = 0.
Proof.
  intros (ps & _ & _ & _ & Ht & _). unfold flush.
  destruct (current_chunk st) eqn:E; [|reflexivity].
  rewrite Ht. reflexivity.
Qed.

Lemma flush_Inv (sp suf : string) (done : list string) (st : loop_state) :
  separator_policy (mkPiece (current_chunk st) sp suf) ->
  Inv done st -> Inv done (flush sp suf st).
Proof.
  intros Hpol (ps & Hc & Hg & Hd & Ht & Hb). unfold flush.
  destruct (current_chunk st) as [|u us] eqn:E.
  - exists ps. rewrite E. auto.
  - exists (ps ++ [mkPiece (u :: us) sp suf])%list. simpl.
    repeat split.
    + rewrite map_app, Hc. reflexivity.
    + apply Forall_app. split; [exact Hg|].
      constructor; [|constructor].
      split; [discriminate | split; [exact Hpol | exact Hb]].
    + rewrite map_app, concat_app. simpl. rewrite !app_nil_r. exact Hd.
    + right. simpl. lia.
Qed.

Lemma push_Inv (u : string) (done : list string) (st : loop_state) :
  budget_ok (current_chunk st ++ [u]) ->
  Inv done st -> Inv (done ++ [u]) (push u (tokens u) st).
Proof.
  intros Hb' (ps & Hc & Hg & Hd & Ht & Hb).
  exists ps. unfold push; simpl. repeat split; auto.
  - rewrite app_assoc, Hd. reflexivity.
  - rewrite sum_tokens_app, Ht. simpl. lia.
Qed.

(** Appending a unit after the overflow test (lines 123-131 and 134-143). *)
Lemma guarded_push_Inv (sp suf u : string) (done : list string) (st : loop_state) :
  (forall us, separator_policy (mkPiece us sp suf)) ->
  Inv done st ->
  Inv (done ++ [u])
      (push u (tokens u)
         (if current_tokens st + tokens u >? max_tokens
          then flush sp suf st else st)).
Proof.
  intros Hpol HI.
  destruct (Z.gtb_spec (current_tokens st + tokens u) max_tokens) as [Hgt|Hle].
  - apply push_Inv; [|apply flush_Inv; auto].
    rewrite flush_current. right; simpl; lia.
  - apply push_Inv; [|exact HI].
    destruct HI as (ps & _ & _ & _ & Ht & _).
    left. rewrite sum_tokens_app, <- Ht. simpl. lia.
Qed.

Lemma para_policy (us : list string) : separator_policy (mkPiece us para_sep EmptyString).
Proof. left; split; reflexivity. Qed.

Lemma sent_policy (us : list string) : separator_policy (mkPiece us sent_sep ".").
Proof. right; split; [reflexivity | left; reflexivity]. Qed.

Lemma sentence_step_Inv (s : string) (done : list string) (st : loop_state) :
  Inv done st ->
  Inv (done ++ filter nonempty [strip s]) (sentence_step st s).
Proof.
  intros HI. unfold Parser.sentence_step. simpl.
  destruct (nonempty (strip s)); simpl.
  - apply guarded_push_Inv; [apply sent_policy | exact HI].
  - rewrite app_nil_r. exact HI.
Qed.

Lemma sentences_Inv (ss : list string) :
  forall done st,
    Inv done st ->
    Inv (done ++ filter nonempty (map strip ss)) (fold_left sentence_step ss st).
Proof.
  induction ss as [|s ss IH]; intros done st HI; simpl.
  - rewrite app_nil_r. exact HI.
  - apply (sentence_step_Inv s) in HI. apply IH in HI.
    simpl in HI. destruct (nonempty (strip s)); simpl in HI.
    + rewrite <- app_assoc in HI. exact HI.
    + rewrite app_nil_r in HI. exact HI.
Qed.

Lemma paragraph_step_Inv (para : string) (done : list string) (st : loop_state) :
  Inv done st -> Inv (done ++ para_units para) (paragraph_step st para).
Proof.
  intros HI. unfold Parser.paragraph_step, Parser.para_units.
  destruct (tokens para >? max_tokens).
  - apply sentences_Inv. apply flush_Inv; [apply para_policy | exact HI].
  - apply guarded_push_Inv; [apply para_policy | exact HI].
Qed.

Lemma paragraphs_Inv (ps : list string) :
  forall done st,
    Inv done st ->
    Inv (done ++ flat_map para_units ps) (fold_left paragraph_step ps st).
Proof.
  induction ps as [|p ps IH]; intros done st HI; simpl.
  - rewrite app_nil_r. exact HI.
  - apply (paragraph_step_Inv p) in HI. apply IH in HI.
    rewrite <- app_assoc in HI. exact HI.
Qed.

Lemma final_flush_pieces (done : list string) (st : loop_state) :
  Inv done st ->
  exists pieces,
    final_flush st = map render pieces /\
    Forall good pieces /\
    concat (map units pieces) = done.
Proof.
  intros (ps & Hc & Hg & Hd & Ht & Hb). unfold final_flush.
  destruct (current_chunk st) as [|u us] eqn:E.
  - exists ps. rewrite app_nil_r in Hd. auto.
  - set (sp := if negb (contains_char (ascii_of_nat 10) u)
               then para_sep else sent_sep).
    exists (ps ++ [mkPiece (u :: us) sp EmptyString])%list. repeat split.
    + rewrite map_app, Hc. simpl. unfold render; simpl.
      rewrite append_nil_r. subst sp.
      destruct (negb (contains_char (ascii_of_nat 10) u)); reflexivity.
    + apply Forall_app. split; [exact Hg|].
      constructor; [|constructor].
      split; [discriminate | split; [|exact Hb]].
      subst sp. destruct (negb (contains_char (ascii_of_nat 10) u)).
      * left; split; reflexivity.
      * right; split; [reflexivity | right; reflexivity].
    + rewrite map_app, concat_app. simpl. rewrite app_nil_r. exact Hd.
Qed.

(** The chunks of the loop path are the units of the text, grouped in order. *)
Lemma chunk_strings_pieces (text : string) :
  exists pieces,
    chunk_strings text = map render pieces /\
    Forall good pieces /\
    concat (map units pieces) = flat_map para_units (split para_sep text).
Proof.
  unfold Parser.chunk_strings.
  apply (final_flush_pieces (flat_map para_units (split para_sep text))).
  apply (paragraphs_Inv (split para_sep text) [] init_state Inv_init).
Qed.

Lemma join_split_para (text : string) :
  join para_sep (split para_sep text) = text.
Proof. exact (join_split (ascii_of_nat 10) nl text). Qed.

Lemma stamp_text (total i : Z) (l : list string) :
  map Parser.text (stamp count_tokens total i l) = l.
Proof.
  revert i; induction l as [|c l IH]; intros i; simpl;
    [reflexivity | now rewrite IH].
Qed.

Lemma stamp_In (total : Z) (l : list string) :
  forall i c, In c (stamp count_tokens total i l) ->
    In (Parser.text c) l /\ token_count c = tokens (Parser.text c).
Proof.
  induction l as [|x l IH]; intros i c H; simpl in H; [contradiction|].
  destruct H as [<-|H]; simpl; [auto|].
  destruct (IH _ _ H); auto.
Qed.

Lemma stamp_index (total : Z) (l : list string) :
  forall i n c, nth_error (stamp count_tokens total i l) n = Some c ->
    chunk_index c = i + Z.of_nat n /\ total_chunks c = total.
Proof.
  induction l as [|x l IH]; intros i n c H; destruct n; simpl in H;
    try discriminate.
  - injection H as <-. simpl. split; [lia | reflexivity].
  - destruct (IH _ _ _ H) as [Hi Ht]. split; [lia | exact Ht].
Qed.

Lemma stamp_length (total i : Z) (l : list string) :
  List.length (stamp count_tokens total i l) = List.length l.
Proof. rewrite <- (stamp_text total i l) at 2. now rewrite length_map. Qed.

(** A unit whose own count exceeds the budget is a sentence of the source. *)
Lemma oversized_unit_is_sentence (text s : string) :
  In s (flat_map para_units (split para_sep text)) ->
  tokens s > max_tokens ->
  In s (atomic_units text).
Proof.
  intros Hin Hgt. apply in_flat_map in Hin as (para & Hp & Hs).
  unfold Parser.para_units in Hs.
  destruct (Z.gtb_spec (tokens para) max_tokens) as [_|Hle].
  - apply in_flat_map. exists para; auto.
  - destruct Hs as [->|[]]. lia.
Qed.

(** The chunks carry their indices in list order, and every chunk records
    the same total. *)
Lemma chunk_text_indices (text : string) (n : nat) (c : DocumentChunk) :
  nth_error (chunk_text text) n = Some c ->
  chunk_index c = Z.of_nat n /\
  total_chunks c = Z.of_nat (List.length (chunk_text text)).
Proof.
  unfold Parser.chunk_text.
  destruct (tokens text <=? max_tokens).
  - destruct n as [|[|n]]; simpl; intros H; try discriminate.
    injection H as <-. auto.
  - intros H. rewrite stamp_length.
    destruct (stamp_index _ _ _ _ _ H). split; [lia | assumption].
Qed.

(** Every chunk is a group of whole units within the budget, or a single
    oversized sentence. *)
Lemma chunk_units_budget (text : string) (c : DocumentChunk) :
  In c (chunk_text text) ->
  token_count c = tokens (Parser.text c) /\
  exists p : piece,
    Parser.text c = render p /\ units p <> [] /\ separator_policy p /\
    (sum_tokens (units p) <= max_tokens \/
     exists s, units p = [s] /\ In s (atomic_units text) /\
               tokens s > max_tokens /\
               (Parser.text c = s \/ Parser.text c = (s ++ ".")%string)).
Proof.
  unfold Parser.chunk_text.
  destruct (Z.leb_spec (tokens text) max_tokens) as [Hle|Hgt]; intros Hin.
  - destruct Hin as [<-|[]]. simpl. split; [reflexivity|].
    exists (mkPiece [text] para_sep EmptyString). unfold render; simpl.
    rewrite append_nil_r. repeat split; [discriminate | apply para_policy |].
    left. lia.
  - apply stamp_In in Hin as [Hin Htok]. split; [exact Htok|].
    destruct (chunk_strings_pieces text) as (ps & Hcs & Hg & Hu).
    rewrite Hcs in Hin. apply in_map_iff in Hin as (p & Hr & Hp).
    pose proof (proj1 (Forall_forall _ _) Hg p Hp) as (Hne & Hpol & Hb).
    exists p. repeat split; auto.
    destruct Hb as [Hb|Hb]; [left; exact Hb|].
    destruct (units p) as [|s [|s' us]] eqn:E; simpl in Hb;
      [congruence | | lia].
    destruct (Z_le_gt_dec (tokens s) max_tokens) as [Hs|Hs].
    + left. simpl. lia.
    + right. exists s. repeat split; auto.
      * apply oversized_unit_is_sentence; [|exact Hs].
        rewrite <- Hu. apply in_concat. exists (units p).
        split; [apply in_map; exact Hp | rewrite E; left; reflexivity].
      * rewrite <- Hr. unfold render. rewrite E. simpl.
        destruct Hpol as [[_ ->]|[_ [->| ->]]];
          rewrite ?append_nil_r; auto.
Qed.

(** The pieces of the loop path: every group of units is within the budget or
    is one oversized sentence of the source. *)
Lemma chunk_strings_budget_pieces (text : string) :
  exists pieces : list piece,
    chunk_strings text = map render pieces /\
    concat (map units pieces) = flat_map para_units (split para_sep text) /\
    Forall (fun p =>
              units p <> [] /\ separator_policy p /\
              (sum_tokens (units p) <= max_tokens \/
               exists s, units p = [s] /\ In s (atomic_units text) /\
                         tokens s > max_tokens /\
                         (render p = s \/ render p = (s ++ ".")%string)))
           pieces.
Proof.
  destruct (chunk_strings_pieces text) as (ps & Hcs & Hg & Hu).
  exists ps. split; [exact Hcs|]. split; [exact Hu|].
  apply Forall_forall. intros p Hp.
  pose proof (proj1 (Forall_forall _ _) Hg p Hp) as (Hne & Hpol & Hb).
  split; [exact Hne|]. split; [exact Hpol|].
  destruct Hb as [Hb|Hb]; [left; exact Hb|].
  destruct (units p) as [|s [|s' us]] eqn:E; simpl in Hb;
    [congruence | | lia].
  destruct (Z_le_gt_dec (tokens s) max_tokens) as [Hs|Hs].
  - left. simpl. lia.
  - right. exists s. split; [reflexivity|]. split.
    + apply oversized_unit_is_sentence; [|exact Hs].
      rewrite <- Hu. apply in_concat. exists (units p).
      split; [apply in_map; exact Hp | rewrite E; left; reflexivity].
    + split; [exact Hs|].
      unfold render. rewrite E. simpl.
      destruct Hpol as [[_ ->]|[_ [->| ->]]];
        rewrite ?append_nil_r; auto.
Qed.

Lemma chunk_text_retokenized (text : string) :
  Forall (fun c => token_count c = tokens (Parser.text c)) (chunk_text text).
Proof.
  apply Forall_forall. intros c Hin.
  exact (proj1 (chunk_units_budget text c Hin)).
Qed.


(** The chunk texts, in index order, are the ordered units of the source
    (its paragraphs, and for a paragraph that alone exceeds the budget its
    stripped non-blank sentences), cut into non-empty consecutive groups
    without loss, duplication or reordering, each group joined by one of the
    chunker's separators. *)
Lemma chunk_text_groups (text : string) :
  exists pieces : list piece,
    map Parser.text (chunk_text text) = map render pieces /\
    Forall (fun p => units p <> [] /\ separator_policy p) pieces /\
    concat (map units pieces) = source_units text /\
    (forall n c, nth_error (chunk_text text) n = Some c ->
                 chunk_index c = Z.of_nat n).
Proof.
  assert (Hidx : forall n c, nth_error (chunk_text text) n = Some c ->
                             chunk_index c = Z.of_nat n)
    by (intros n c H; apply (chunk_text_indices _ _ _ H)).
  revert Hidx. unfold Parser.chunk_text, Parser.source_units.
  destruct (tokens text <=? max_tokens); intros Hidx.
  - exists [mkPiece (split para_sep text) para_sep EmptyString]. simpl.
    repeat split; auto.
    + unfold render; cbn [units sep suffix].
      rewrite join_split_para, append_nil_r. reflexivity.
    + constructor; [|constructor].
      split; [apply split_go_nonnil | apply para_policy].
    + apply app_nil_r.
  - destruct (chunk_strings_pieces text) as (ps & Hcs & Hg & Hu).
    exists ps. rewrite stamp_text. repeat split; auto.
    eapply Forall_impl; [|exact Hg]. intros p (Hne & Hpol & _). auto.
Qed.

(** C4, as the code has it: the empty text yields one chunk holding the empty
    string whenever its token count fits the budget (the shortcut of lines
    88-94), and no chunk only when it does not. *)
Theorem chunk_text_empty :
  chunk_text EmptyString =
    if tokens EmptyString <=? max_tokens
    then [mkChunk EmptyString (tokens EmptyString) 0 1]
    else [].
Proof.
  unfold Parser.chunk_text.
  destruct (Z.leb_spec (tokens EmptyString) max_tokens) as [Hle|Hgt]; [reflexivity|].
  unfold Parser.chunk_strings. simpl. unfold Parser.paragraph_step.
  destruct (Z.gtb_spec (tokens EmptyString) max_tokens) as [_|Hle]; [|lia].
  reflexivity.
Qed.

(** The budget as the specification words it does hold for a tokenizer that
    never counts more for a joined chunk than for its units. *)
Lemma budget_claim_when_joining_is_free :
  (forall p, separator_policy p -> tokens (render p) <= sum_tokens (units p)) ->
  forall text, Parser.budget_claim count_tokens max_tokens text.
Proof.
  intros Hfree text c Hin.
  destruct (chunk_units_budget text c Hin)
    as (_ & p & Hr & _ & Hpol & [Hsum|(s & _ & Hs & Hgt & Hc)]).
  - left. rewrite Hr. specialize (Hfree p Hpol). lia.
  - right. exists s. auto.
Qed.

End Segmenter.

Lemma alnum_tokenizer_app (a b : string) :
  alnum_tokenizer (a ++ b)%string = (alnum_tokenizer a + alnum_tokenizer b)%nat.
Proof. induction a as [|c a IH]; simpl; [reflexivity | rewrite IH; lia]. Qed.

Lemma alnum_tokenizer_join (sp : string) (us : list string) :
  alnum_tokenizer sp = 0%nat ->
  Parser.tokens alnum_tokenizer (join sp us) = Parser.sum_tokens alnum_tokenizer us.
Proof.
  intros Hsp. unfold Parser.tokens, Parser.sum_tokens.
  induction us as [|u us IH]; [reflexivity|].
  destruct us as [|v us].
  - cbn [join String.concat fold_right]. unfold Parser.tokens. lia.
  - rewrite join_cons by discriminate.
    rewrite !alnum_tokenizer_app, Hsp.
    cbn [fold_right] in *. unfold Parser.tokens in *. lia.
Qed.

(** Letters and digits only: the separators and the closing period are free,
    so the specification's budget holds for this tokenizer. *)
Lemma budget_claim_alnum (budget : Z) (text : string) :
  Parser.budget_claim alnum_tokenizer budget text.
Proof.
  apply budget_claim_when_joining_is_free.
  intros p Hpol. unfold render, Parser.tokens.
  rewrite alnum_tokenizer_app, Nat2Z.inj_add.
  fold (Parser.tokens alnum_tokenizer (join (sep p) (units p))).
  destruct Hpol as [[Hs Hx]|[Hs [Hx|Hx]]]; rewrite Hs, Hx;
    rewrite alnum_tokenizer_join by reflexivity; simpl; lia.
Qed.

(** ** Concrete runs with the one-token-per-character tokenizer *)

Example three_paragraphs_chunks :
  map Parser.text (Parser.chunk_text char_tokenizer 2 three_paragraphs)
  = [("a" ++ nl ++ nl ++ "b")%string; "c"%string].
Proof. reflexivity. Qed.

(** Which separator joins a group is decided by the flush that emits it: the
    final flush joins two paragraphs by a period and a space when the first
    contains a newline, ... *)
Example final_flush_joins_by_period :
  map Parser.text
      (Parser.chunk_text char_tokenizer 6
         ("dddddd" ++ nl ++ nl ++ "a" ++ nl ++ "b" ++ nl ++ nl ++ "c")%string)
  = ["dddddd"%string; ("a" ++ nl ++ "b. c")%string].
Proof. reflexivity. Qed.

(** ... and a sentence left in the buffer is joined to the next paragraph by
    a blank line. *)
Example leftover_sentence_joins_by_blank_line :
  map Parser.text
      (Parser.chunk_text char_tokenizer 6
         ("Aaa bb. Cc dd. Eeeeeeeeee. F g" ++ nl ++ nl ++ "x")%string)
  = ["Aaa bb."; "Cc dd."; "Eeeeeeeeee."; ("F g" ++ nl ++ nl ++ "x")]%string.
Proof. reflexivity. Qed.


(** The same failure for every tokenizer that gives each letter one token
    and the joined text more than two (cl100k_base gives it three: the blank
    line is a token of its own). *)
Lemma budget_claim_fails_when_joining_costs (count_tokens : string -> nat) :
  count_tokens "a" = 1%nat -> count_tokens "b" = 1%nat -> count_tokens "c" = 1%nat ->
  (2 < count_tokens ("a" ++ nl ++ nl ++ "b")%string)%nat ->
  (2 < count_tokens three_paragraphs)%nat ->
  ~ budget_claim count_tokens 2 three_paragraphs.
Proof.
  intros Ha Hb Hc Hab Hall H.
  assert (Hin : In (mkChunk ("a" ++ nl ++ nl ++ "b")%string
                            (Parser.tokens count_tokens ("a" ++ nl ++ nl ++ "b")%string)
                            0 2)
                   (Parser.chunk_text count_tokens 2 three_paragraphs)).
  { unfold Parser.chunk_text.
    destruct (Z.leb_spec (Parser.tokens count_tokens three_paragraphs) 2) as [Hle|_];
      [unfold Parser.tokens in Hle; lia|].
    unfold Parser.chunk_strings.
    change (split para_sep three_paragraphs) with ["a"; "b"; "c"]%string.
    unfold Parser.paragraph_step, Parser.tokens, fold_left, flush, push, init_state;
      cbn [current_chunk current_tokens chunks].
    rewrite Ha, Hb, Hc. cbn. left. reflexivity. }
  destruct (H _ Hin) as [Hle|(s & Hs & Hgt & _)].
  - cbn [Parser.text] in Hle. unfold Parser.tokens in Hle. lia.
  - change (atomic_units three_paragraphs) with ["a"; "b"; "c"]%string in Hs.
    unfold Parser.tokens in Hgt.
    destruct Hs as [<-|[<-|[<-|[]]]]; lia.
Qed.

(** C4 fails as stated: the empty text yields a chunk. *)
Lemma empty_text_yields_a_chunk :
  ~ (forall (count_tokens : string -> nat) (budget : Z),
       0 < budget -> Parser.chunk_text count_tokens budget EmptyString = []).
Proof.
  intros H. specialize (H char_tokenizer 4000 ltac:(lia)). discriminate H.
Qed.

End ParserFacts.

(* ================================================================== *)
(** * The aggregator *)
(* ================================================================== *)

Module AggregatorFacts.
Import PyStr Parser Evaluator.
Local Open Scope list_scope.

Lemma add_sample_at (ws : sums) (ew : DocumentEvaluation * Z) (d : dimension) :
  add_sample ws ew d = (ws d + getattr (fst ew) d * inject_Z (snd ew))%Q.
Proof. destruct d; reflexivity. Qed.

Lemma weighted_sums_at (d : dimension) (evaluations : list (DocumentEvaluation * Z)) :
  forall ws : sums,
    (fold_left add_sample evaluations ws d ==
     ws d + fold_right (fun ew acc => getattr (fst ew) d * inject_Z (snd ew) + acc)
                       0 evaluations)%Q.
Proof.
  induction evaluations as [|ew evs IH]; intros ws; simpl.
  - now rewrite Qplus_0_r.
  - rewrite IH, add_sample_at. now rewrite Qplus_assoc.
Qed.

Lemma total_weight_fold_right (evaluations : list (DocumentEvaluation * Z)) :
  total_weight evaluations = fold_right (fun ew acc => snd ew + acc) 0 evaluations.
Proof.
  unfold total_weight.
  assert (H : forall acc, fold_left (fun acc ew => acc + snd ew) evaluations acc
                          = acc + fold_right (fun ew acc => snd ew + acc) 0 evaluations).
  { induction evaluations as [|ew evs IH]; intros acc; simpl;
      [lia | rewrite IH; lia]. }
  rewrite H. lia.
Qed.

(** C9: on a non-empty list of samples of positive total weight, every
    dimension of the result is the sum of value times weight over the sum of
    the weights. *)
Theorem weighted_average_formula (evaluations : list (DocumentEvaluation * Z)) :
  evaluations <> [] ->
  0 < total_weight evaluations ->
  exists r, weighted_average evaluations = Returns r /\
            forall d, (getattr r d == weighted_mean d evaluations)%Q.
Proof.
  intros Hne Hpos. unfold weighted_average.
  destruct evaluations as [|ew evs]; [congruence|].
  destruct (Z.eqb_spec (total_weight (ew :: evs)) 0) as [H0|_]; [lia|].
  eexists; split; [reflexivity|].
  intros d. unfold weighted_mean.
  rewrite <- total_weight_fold_right.
  destruct d; cbn [getattr relevance factual_accuracy clarity hallucination
                     style_match rag_usability citation_quality];
    rewrite weighted_sums_at, Qplus_0_l; reflexivity.
Qed.

(** C3 fails as stated: on the empty list the aggregator returns. *)
Lemma empty_input_is_not_an_error :
  ~ (forall evaluations : list (DocumentEvaluation * Z),
       evaluations = [] \/ total_weight evaluations = 0 ->
       exists e, weighted_average evaluations = Raises e).
Proof.
  intros H. destruct (H [] (or_introl eq_refl)) as [e He]. discriminate He.
Qed.

(** C3, as the code has it: with nothing to aggregate (no sample, or samples
    of total weight zero) the aggregator returns the all-zero score. *)
Theorem weighted_average_nothing_to_aggregate
    (evaluations : list (DocumentEvaluation * Z)) :
  evaluations = [] \/ total_weight evaluations = 0 ->
  weighted_average evaluations = Returns zero_score.
Proof.
  intros [->|H0]; [reflexivity|].
  unfold weighted_average. destruct evaluations; [reflexivity|].
  rewrite H0. reflexivity.
Qed.

(** A genuine composite of all-zero scores is the same score, numerically. *)
Example all_zero_composite :
  exists r, weighted_average [(zero_score, 5)] = Returns r /\
            forall d, (getattr r d == getattr zero_score d)%Q.
Proof. eexists; split; [reflexivity|]. intros d; destruct d; reflexivity. Qed.

Lemma weighted_average_nothing_to_aggregate_witness :
  ([(fives, 0)] = [] \/ total_weight [(fives, 0)] = 0) /\
  weighted_average [(fives, 0)] = Returns zero_score.
Proof.
  split; [right; reflexivity|].
  apply weighted_average_nothing_to_aggregate. right; reflexivity.
Defined.

(** The aggregation example of the specification: all 5s with weight 10 and
    all 0s with weight 30 give 1.25 in every dimension. *)
Lemma weighted_average_formula_witness :
  [(fives, 10); (zero_score, 30)] <> [] /\
  0 < total_weight [(fives, 10); (zero_score, 30)] /\
  exists r, weighted_average [(fives, 10); (zero_score, 30)] = Returns r /\
            forall d, (getattr r d == 5 # 4)%Q.
Proof.
  split; [discriminate|]. split; [reflexivity|].
  destruct (weighted_average_formula [(fives, 10); (zero_score, 30)])
    as (r & Hr & Hd); [discriminate | reflexivity |].
  exists r. split; [exact Hr|].
  intros d. rewrite Hd. destruct d; reflexivity.
Defined.

End AggregatorFacts.

(* ================================================================== *)
(** * The retry loop and the orchestrator *)
(* ================================================================== *)

Module EvaluatorFacts.
Import PyStr Parser Evaluator.
Local Open Scope list_scope.

(** The first replacement field of the prompt template is the brace that
    opens the JSON example, so formatting the prompt raises [KeyError]
    whatever the chunk text is. *)
Lemma format_prompt_raises (text : string) :
  format EVALUATION_PROMPT [("text"%string, text)]
  = Raises (KeyError (nl ++ "  " ++ dq ++ "relevance" ++ dq)%string).
Proof. vm_compute. reflexivity. Qed.

Section Scorer.

Variable create : nat -> string -> outcome string.
Variable json_loads : string -> outcome json.
Variable max_retries : Z.

Local Abbreviation attempt_once := (Evaluator.attempt_once create json_loads).
Local Abbreviation retry_loop := (Evaluator.retry_loop create json_loads max_retries).
Local Abbreviation evaluate_chunk := (Evaluator.evaluate_chunk create json_loads max_retries).

Lemma evaluate_chunk_raises (chunk : DocumentChunk) (w : world) :
  evaluate_chunk chunk w
  = (Raises (KeyError (nl ++ "  " ++ dq ++ "relevance" ++ dq)%string), w).
Proof. unfold Evaluator.evaluate_chunk. now rewrite format_prompt_raises. Qed.

(** *** The retry loop, from a prompt on (lines 154-205) *)

Lemma attempt_once_raises (prompt : string) (w : world) (e : exn) :
  create (List.length (requests w)) prompt = Raises e ->
  attempt_once prompt w
  = (Raises e, mkWorld (requests w ++ [prompt]) (slept w) (printed w)).
Proof. intros H. unfold Evaluator.attempt_once. now rewrite H. Qed.

(** One iteration of the loop after a rate-limit error. *)
Lemma retry_loop_on_rate_limit (msg prompt : string) (w : world)
      (remaining : nat) (attempt : Z) :
  create (List.length (requests w)) prompt = Raises (RateLimitError msg) ->
  let w' := mkWorld (requests w ++ [prompt]) (slept w) (printed w) in
  retry_loop (S remaining) attempt prompt w
  = if attempt <? max_retries - 1
    then retry_loop remaining (attempt + 1) prompt (sleep (2 ^ attempt) w')
    else (Raises (Exception ("Rate limit exceeded after " ++ str_of_int max_retries
                             ++ " retries: " ++ msg)%string), w').
Proof.
  intros H w'. cbn [Evaluator.retry_loop].
  rewrite (attempt_once_raises _ _ _ H). reflexivity.
Qed.

(** With a service that always answers with a rate-limit error, the loop
    sends one request per attempt, sleeps [2 ^ attempt] seconds between
    attempts, and raises after the last attempt with the error's text. *)
Lemma retry_loop_rate_limited (msg prompt : string) :
  (forall n p, create n p = Raises (RateLimitError msg)) ->
  forall (n : nat) (attempt : Z) (w : world),
    max_retries = attempt + Z.of_nat (S n) ->
    retry_loop (S n) attempt prompt w
    = (Raises (Exception ("Rate limit exceeded after " ++ str_of_int max_retries
                          ++ " retries: " ++ msg)%string),
       mkWorld (requests w ++ repeat prompt (S n))
               (slept w ++ backoffs attempt n)
               (printed w)).
Proof.
  intros Hrl. induction n as [|n IH]; intros attempt w Hmax.
  - rewrite (retry_loop_on_rate_limit msg) by apply Hrl.
    destruct (Z.ltb_spec attempt (max_retries - 1)) as [Hlt|_]; [lia|].
    simpl. now rewrite app_nil_r.
  - rewrite (retry_loop_on_rate_limit msg) by apply Hrl.
    destruct (Z.ltb_spec attempt (max_retries - 1)) as [_|Hge]; [|lia].
    rewrite IH by lia. unfold sleep. cbn [requests slept printed backoffs repeat].
    now rewrite <- !app_assoc.
Qed.

(** How a reply is turned into a score or a failure: an object of any key
    set is accepted, a value that is not an object ends the evaluation at
    once, and only an undecodable reply is retried. *)
Lemma retry_loop_reply (prompt content : string) (w : world)
      (remaining : nat) (attempt : Z) :
  create (List.length (requests w)) prompt = Returns content ->
  let w' := mkWorld (requests w ++ [prompt]) (slept w) (printed w) in
  (forall d, json_loads content = Returns (JObject d) ->
     retry_loop (S remaining) attempt prompt w = (Returns (Some (from_dict d)), w'))
  /\
  (forall ty, json_loads content = Returns (JOther ty) ->
     retry_loop (S remaining) attempt prompt w
     = (Raises (Exception ("Unexpected error during evaluation: "
                           ++ ("'" ++ ty ++ "' object has no attribute 'get'"))%string),
        w'))
  /\
  (forall msg, json_loads content = Raises (JSONDecodeError msg) ->
     retry_loop (S remaining) attempt prompt w
     = if attempt <? max_retries - 1
       then retry_loop remaining (attempt + 1) prompt (sleep 1 w')
       else (Raises (Exception ("API error after " ++ str_of_int max_retries
                                ++ " retries: " ++ msg)%string), w')).
Proof.
  intros Hc w'. repeat split; intros x Hx;
    cbn [Evaluator.retry_loop]; unfold Evaluator.attempt_once;
    rewrite Hc, Hx; reflexivity.
Qed.

(** *** The orchestrator loop (lines 222-237) *)

Section Orchestrator.

Variable evaluate :
  DocumentChunk -> world -> outcome (option DocumentEvaluation) * world.

Lemma fold_chunk_step (chunks : list DocumentChunk) :
  forall acc w,
    fst (fold_left (chunk_step evaluate) chunks (acc, w))
    = acc ++ survivors chunks (chunk_outcomes evaluate chunks w).
Proof.
  induction chunks as [|c chunks IH]; intros acc w; simpl.
  - now rewrite app_nil_r.
  - destruct (evaluate c w) as [[[e|]|e] w1]; rewrite IH; simpl.
    + now rewrite <- app_assoc.
    + reflexivity.
    + reflexivity.
Qed.

(** The composite is the weighted average of the surviving chunks, and the
    evaluation fails only when there is none. *)
Lemma evaluate_chunks_with_survivors (chunks : list DocumentChunk) (w : world) :
  fst (evaluate_chunks_with evaluate chunks w)
  = match survivors chunks (chunk_outcomes evaluate chunks w) with
    | [] => Raises (Exception "Failed to evaluate any chunks in the document")
    | (_ :: _) as l => weighted_average l
    end.
Proof.
  unfold evaluate_chunks_with.
  pose proof (fold_chunk_step chunks [] w) as H.
  destruct (fold_left (chunk_step evaluate) chunks ([], w)) as [acc w1].
  simpl in H. rewrite <- H. destruct acc; reflexivity.
Qed.

Lemma survivors_all_failed (chunks : list DocumentChunk) :
  forall outcomes,
    Forall (fun r => exists e, r = Raises e) outcomes ->
    survivors chunks outcomes = [].
Proof.
  induction chunks as [|c chunks IH]; intros outcomes H; [reflexivity|].
  destruct H as [|r rs [e ->] Hrs]; simpl; [reflexivity | now apply IH].
Qed.

End Orchestrator.

End Scorer.

(** *** Concrete runs *)

(** Fed a prompt, the retry loop under a rate-limited service makes three
    requests, sleeps 1 and 2 seconds, and raises. *)
Example retry_loop_three_attempts :
  Evaluator.retry_loop always_rate_limited loads_all_fives 3 3 0 "prompt"
                       initial_world
  = (Raises (Exception "Rate limit exceeded after 3 retries: 429 Too Many Requests"),
     mkWorld ["prompt"; "prompt"; "prompt"]%string [1; 2] []).
Proof.
  rewrite (retry_loop_rate_limited always_rate_limited loads_all_fives 3
             "429 Too Many Requests" "prompt" (fun _ _ => eq_refl) 2 0
             initial_world eq_refl).
  reflexivity.
Qed.

(** C7 on the code: with a service that always answers with a rate-limit
    error and three attempts allowed, [evaluate_chunk] raises the [KeyError]
    of the prompt formatting; no request is sent and nothing is slept. *)
Theorem rate_limited_chunk_sends_no_request :
  Evaluator.evaluate_chunk always_rate_limited loads_all_fives 3 sample_chunk
                           initial_world
  = (Raises (KeyError (nl ++ "  " ++ dq ++ "relevance" ++ dq)%string),
     mkWorld [] [] []).
Proof. apply evaluate_chunk_raises. Qed.

(** C8 fails as stated: the empty object yields a score. *)
Lemma empty_object_is_scored :
  ~ (forall (data : json) (e : DocumentEvaluation),
       from_parsed data = Returns e ->
       exists d, data = JObject d /\ exact_keys d = true).
Proof.
  intros H. destruct (H (JObject []) zero_score eq_refl) as (d & Hd & Hk).
  injection Hd as <-. discriminate Hk.
Qed.

(** C8, as the code has it: a reply that parses to an object yields a score
    at once, whatever its keys, each dimension being the object's value for
    its key or 0 when the key is absent; a reply that parses to anything
    else ends the evaluation at once as an unexpected error, without retry;
    only a reply that does not parse is retried, one second later, until the
    attempts run out. *)
Theorem reply_handling
    (create : nat -> string -> outcome string)
    (json_loads : string -> outcome json) (max_retries : Z)
    (prompt content : string) (w : world) (remaining : nat) (attempt : Z) :
  create (List.length (requests w)) prompt = Returns content ->
  let w' := mkWorld (requests w ++ [prompt]) (slept w) (printed w) in
  (forall d, json_loads content = Returns (JObject d) ->
     Evaluator.retry_loop create json_loads max_retries (S remaining) attempt prompt w
     = (Returns (Some (from_dict d)), w') /\
     forall dim, getattr (from_dict d) dim
                 = match lookup (key dim) d with Some v => v | None => 0%Q end)
  /\
  (forall ty, json_loads content = Returns (JOther ty) ->
     Evaluator.retry_loop create json_loads max_retries (S remaining) attempt prompt w
     = (Raises (Exception ("Unexpected error during evaluation: "
                           ++ ("'" ++ ty ++ "' object has no attribute 'get'"))%string),
        w'))
  /\
  (forall msg, json_loads content = Raises (JSONDecodeError msg) ->
     Evaluator.retry_loop create json_loads max_retries (S remaining) attempt prompt w
     = if attempt <? max_retries - 1
       then Evaluator.retry_loop create json_loads max_retries remaining
                                 (attempt + 1) prompt (sleep 1 w')
       else (Raises (Exception ("API error after " ++ str_of_int max_retries
                                ++ " retries: " ++ msg)%string), w')).
Proof.
  intros Hc w'.
  destruct (retry_loop_reply create json_loads max_retries prompt content w
              remaining attempt Hc) as (Hobj & Hother & Hdec).
  repeat split.
  - now apply Hobj.
  - intros dim. destruct dim; reflexivity.
  - exact Hother.
  - exact Hdec.
Qed.

Lemma reply_handling_witness :
  answers "{}" (List.length (requests initial_world)) "prompt" = Returns "{}"%string /\
  Evaluator.retry_loop (answers "{}") loads_empty_object 3 3 0 "prompt" initial_world
  = (Returns (Some zero_score), mkWorld ["prompt"%string] [] []).
Proof.
  split; [reflexivity|].
  destruct (reply_handling (answers "{}") loads_empty_object 3 "prompt" "{}"
              initial_world 2 0 eq_refl) as (Hobj & _).
  destruct (Hobj [] eq_refl) as [Hrun _]. exact Hrun.
Defined.

End EvaluatorFacts.

(* ================================================================== *)
(** * Document outcomes *)
(* ================================================================== *)

Module MainFacts.
Import PyStr Parser Evaluator Output Main EvaluatorFacts.
Local Open Scope list_scope.

(** C6: when the evaluation of every chunk of a document raises, processing
    the document returns an ordinary result with status [error], no
    evaluation, and the message of the all-chunks-failed exception. *)
Theorem all_chunks_failed_outcome
    (count_tokens : string -> nat) (max_tokens : Z)
    (create : nat -> string -> outcome string)
    (json_loads : string -> outcome json) (max_retries : Z)
    (doc_path text : string) (w : world) :
  Forall (fun r => exists e, r = Raises e)
         (chunk_outcomes (evaluate_chunk create json_loads max_retries)
                         (chunk_text count_tokens max_tokens text) w) ->
  fst (evaluate_document count_tokens max_tokens create json_loads max_retries
                         doc_path (Returns text) w)
  = mkResult doc_path None "error"
             (Some "Failed to evaluate any chunks in the document"%string).
Proof.
  intros Hall. unfold evaluate_document, parse, evaluate_chunks.
  pose proof (evaluate_chunks_with_survivors
                (evaluate_chunk create json_loads max_retries)
                (chunk_text count_tokens max_tokens text) w) as H.
  rewrite (survivors_all_failed _ _ Hall) in H.
  destruct (evaluate_chunks_with _ _ w) as [r w1]. simpl in H. subst r.
  reflexivity.
Qed.

Lemma all_chunks_failed_outcome_witness :
  Forall (fun r => exists e, r = Raises e)
         (chunk_outcomes (evaluate_chunk always_rate_limited loads_all_fives 3)
                         (chunk_text char_tokenizer 1 three_paragraphs)
                         initial_world) /\
  fst (evaluate_document char_tokenizer 1 always_rate_limited loads_all_fives 3
                         "report.docx" (Returns three_paragraphs) initial_world)
  = mkResult "report.docx" None "error"
             (Some "Failed to evaluate any chunks in the document"%string).
Proof.
  assert (H : Forall (fun r => exists e, r = Raises e)
                (chunk_outcomes (evaluate_chunk always_rate_limited loads_all_fives 3)
                                (chunk_text char_tokenizer 1 three_paragraphs)
                                initial_world)).
  { vm_compute. repeat constructor; eexists; reflexivity. }
  split; [exact H | apply all_chunks_failed_outcome; exact H].
Defined.

(** The orchestrator loop alone, handed the chunk text as the prompt: the
    second of three chunks exhausts its three attempts, is skipped with a
    warning, and the composite is the weighted average of chunks 1 and 3. *)
Example orchestrator_loop_skips_failed_chunk :
  evaluate_chunks_with
    (fun chunk => retry_loop second_chunk_rate_limited loads_all_fives 3 3 0
                             (Parser.text chunk))
    (chunk_text char_tokenizer 1 three_paragraphs) initial_world
  = (weighted_average [(fives, 1); (fives, 1)],
     mkWorld ["a"; "b"; "b"; "b"; "c"]%string [1; 2]
             [(2, 3, Exception "Rate limit exceeded after 3 retries: 429 Too Many Requests")]).
Proof. vm_compute. reflexivity. Qed.

(** C5 on the code: a three-chunk document whose scoring service would
    score chunks 1 and 3 and rate-limit chunk 2 is reported as an error;
    every chunk fails while its prompt is formatted, before any request. *)
Theorem partial_failure_document_is_an_error :
  evaluate_document char_tokenizer 1 second_chunk_rate_limited loads_all_fives 3
                    "report.docx" (Returns three_paragraphs) initial_world
  = (mkResult "report.docx" None "error"
              (Some "Failed to evaluate any chunks in the document"%string),
     mkWorld [] []
       [(1, 3, KeyError (nl ++ "  " ++ dq ++ "relevance" ++ dq)%string);
        (2, 3, KeyError (nl ++ "  " ++ dq ++ "relevance" ++ dq)%string);
        (3, 3, KeyError (nl ++ "  " ++ dq ++ "relevance" ++ dq)%string)]).
Proof. vm_compute. reflexivity. Qed.

End MainFacts.

(* ================================================================== *)
(** * The CSV row of a failed document *)
(* ================================================================== *)

Module OutputFacts.
Import PyStr Evaluator Output.
Local Open Scope list_scope.

(** C10: the CSV row written for a result without evaluation reads: file
    name, 0 in each of the seven score columns, status, and the error message
    or the empty string; the zeros come from the flat dictionary, which holds
    0 under each score key.  Against the row of an evaluated result of the
    same file whose scores are all zero, it differs in the status and
    error-message columns only. *)
Theorem failed_result_row_is_all_zero (r : EvaluationResult) :
  evaluation r = None ->
  csv_row (to_flat_dict r)
  = [CStr (filename r); CNum 0; CNum 0; CNum 0; CNum 0; CNum 0; CNum 0; CNum 0;
     CStr (status r);
     CStr match error_message r with Some m => m | None => EmptyString end] /\
  (forall d, lookup (key d) (to_flat_dict r) = Some (CNum 0)) /\
  (forall d, csv_cell (to_flat_dict r) (key d) = CNum 0) /\
  lookup "status" (to_flat_dict r) = Some (CStr (status r)) /\
  (forall (e : DocumentEvaluation) (st : string) (msg : option string),
     (forall d, (getattr e d == 0)%Q) ->
     forall k, In k FIELDNAMES -> k <> "status"%string -> k <> "error_message"%string ->
       same_cell (csv_cell (to_flat_dict r) k)
                 (csv_cell (to_flat_dict (mkResult (filename r) (Some e) st msg)) k)).
Proof.
  destruct r as [fn ev st0 msg0]. simpl. intros ->. split; [|split; [|split; [|split]]].
  - destruct msg0 as [[|c m]|]; reflexivity.
  - intros d. destruct d; reflexivity.
  - intros d. destruct d; reflexivity.
  - reflexivity.
  - intros e st msg Hz k Hk Hs Hm.
    unfold FIELDNAMES in Hk. simpl in Hk.
    destruct Hk as [<-|[<-|[<-|[<-|[<-|[<-|[<-|[<-|[<-|[<-|[]]]]]]]]]]];
      try congruence; cbn; try reflexivity; symmetry.
    + apply (Hz Relevance).
    + apply (Hz FactualAccuracy).
    + apply (Hz Clarity).
    + apply (Hz Hallucination).
    + apply (Hz StyleMatch).
    + apply (Hz RagUsability).
    + apply (Hz CitationQuality).
Qed.

Lemma failed_result_row_is_all_zero_witness :
  evaluation (mkResult "report.docx" None "error" (Some "boom"%string)) = None /\
  csv_row (to_flat_dict (mkResult "report.docx" None "error" (Some "boom"%string)))
  = [CStr "report.docx"; CNum 0; CNum 0; CNum 0; CNum 0; CNum 0; CNum 0; CNum 0;
     CStr "error"; CStr "boom"].
Proof.
  split; [reflexivity|].
  exact (proj1 (failed_result_row_is_all_zero
                  (mkResult "report.docx" None "error" (Some "boom"%string))
                  eq_refl)).
Defined.

(** The CSV row of a failed document. *)
Example failed_result_row :
  csv_row (to_flat_dict (mkResult "report.docx" None "error" (Some "boom"%string)))
  = [CStr "report.docx"; CNum 0; CNum 0; CNum 0; CNum 0; CNum 0; CNum 0; CNum 0;
     CStr "error"; CStr "boom"].
Proof. reflexivity. Qed.

End OutputFacts.

(* ================================================================== *)
(** * More on the segmenter *)
(* ================================================================== *)

Module SegmenterFacts.
Import PyStr PyStrFacts Parser ParserFacts Grouping.
Local Open Scope list_scope.

Lemma join_app (sp : string) (a b : list string) :
  a <> [] -> b <> [] ->
  join sp (a ++ b) = (join sp a ++ sp ++ join sp b)%string.
Proof.
  induction a as [|x a IH]; intros Ha Hb; [congruence|].
  destruct a as [|y a].
  - simpl app. now rewrite join_cons.
  - change ((x :: y :: a) ++ b) with (x :: (y :: a) ++ b).
    rewrite !join_cons by discriminate.
    rewrite IH by (auto; discriminate).
    now rewrite !append_assoc.
Qed.

Lemma concat_nonempty (gs : list (list string)) :
  gs <> [] -> Forall (fun g => g <> []) gs -> concat gs <> [].
Proof.
  destruct gs as [|g gs]; [congruence|]. intros _ H.
  apply Forall_inv in H. simpl. destruct g; [congruence | discriminate].
Qed.

(** Joining the joined groups is joining all the units. *)
Lemma join_concat (sp : string) (gs : list (list string)) :
  Forall (fun g => g <> []) gs ->
  join sp (map (join sp) gs) = join sp (concat gs).
Proof.
  induction gs as [|g gs IH]; intros H; [reflexivity|].
  pose proof (Forall_inv H) as Hg. pose proof (Forall_inv_tail H) as Hgs.
  destruct gs as [|g' gs].
  - simpl. now rewrite app_nil_r.
  - change (map (join sp) (g :: g' :: gs))
      with (join sp g :: map (join sp) (g' :: gs)).
    rewrite join_cons by discriminate.
    rewrite IH by exact Hgs.
    change (concat (g :: g' :: gs)) with (g ++ concat (g' :: gs)).
    rewrite join_app; auto. apply concat_nonempty; [discriminate | exact Hgs].
Qed.

Lemma length_concat_nonempty (gs : list (list string)) :
  Forall (fun g => g <> []) gs ->
  (List.length gs <= List.length (concat gs))%nat.
Proof.
  induction gs as [|g gs IH]; intros H; simpl; [lia|].
  pose proof (Forall_inv H) as Hg. specialize (IH (Forall_inv_tail H)).
  rewrite length_app. destruct g; [congruence | simpl; lia].
Qed.

Section Segmenter.

Variable count_tokens : string -> nat.
Variable max_tokens : Z.

Local Abbreviation tokens := (Parser.tokens count_tokens).
Local Abbreviation sum_tokens := (Parser.sum_tokens count_tokens).
Local Abbreviation paragraph_step := (Parser.paragraph_step count_tokens max_tokens).
Local Abbreviation chunk_strings := (Parser.chunk_strings count_tokens max_tokens).
Local Abbreviation chunk_text := (Parser.chunk_text count_tokens max_tokens).
Local Abbreviation source_units := (Parser.source_units count_tokens max_tokens).
Local Abbreviation greedy := (Grouping.greedy count_tokens max_tokens).
Local Abbreviation Fit := (Grouping.Fit count_tokens max_tokens).
Local Abbreviation plain_paragraphs := (Grouping.plain_paragraphs count_tokens max_tokens).
Local Abbreviation no_oversized_paragraph :=
  (Grouping.no_oversized_paragraph count_tokens max_tokens).
Local Abbreviation blank_line_final_flush :=
  (Grouping.blank_line_final_flush count_tokens max_tokens).

(** *** Positions *)

(** Every chunk sits at the position its index names, below the total that
    all chunks record. *)
Theorem chunk_positions (text : string) (c : DocumentChunk) :
  In c (chunk_text text) ->
  0 <= chunk_index c < total_chunks c /\
  total_chunks c = Z.of_nat (List.length (chunk_text text)) /\
  nth_error (chunk_text text) (Z.to_nat (chunk_index c)) = Some c.
Proof.
  intros Hin. apply In_nth_error in Hin as [n Hn].
  destruct (chunk_text_indices count_tokens max_tokens text n c Hn) as [Hi Ht].
  assert (Hlt : (n < List.length (chunk_text text))%nat)
    by (apply nth_error_Some; congruence).
  rewrite Hi, Ht, Nat2Z.id. repeat split; try lia. exact Hn.
Qed.

(** *** The shortcut *)

Lemma chunk_text_shortcut (text : string) :
  tokens text <= max_tokens ->
  chunk_text text = [mkChunk text (tokens text) 0 1].
Proof.
  intros H. unfold Parser.chunk_text.
  destruct (Z.leb_spec (tokens text) max_tokens); [reflexivity | lia].
Qed.

(** *** How many chunks *)

(** There are never more chunks than units, and no chunk at all exactly when
    the text has no unit. *)
Theorem chunk_count (text : string) :
  (List.length (chunk_text text) <= List.length (source_units text))%nat /\
  (chunk_text text = [] <-> source_units text = []).
Proof.
  unfold Parser.chunk_text, Parser.source_units.
  destruct (tokens text <=? max_tokens).
  - pose proof (split_go_nonnil para_sep text 0 EmptyString) as Hne.
    fold (split para_sep text) in Hne.
    destruct (split para_sep text); [congruence|].
    split; [simpl; lia | split; discriminate].
  - destruct (chunk_strings_pieces count_tokens max_tokens text)
      as (ps & Hcs & Hg & Hu).
    assert (Hne : Forall (fun g => g <> []) (map units ps)).
    { apply Forall_map. eapply Forall_impl; [|exact Hg].
      intros p (H & _). exact H. }
    rewrite stamp_length, Hcs, length_map, <- Hu.
    split.
    + rewrite <- (length_map units ps). now apply length_concat_nonempty.
    + split; intros H.
      * assert (ps = []).
        { destruct ps; [reflexivity|].
          apply (f_equal (@List.length _)) in H.
          rewrite stamp_length in H. discriminate H. }
        subst ps. reflexivity.
      * assert (ps = []).
        { destruct ps as [|p ps]; [reflexivity|].
          exfalso. apply (concat_nonempty (map units (p :: ps))); auto.
          discriminate. }
        subst ps. reflexivity.
Qed.

(** *** Paragraphs that fit: greedy grouping and exact round trip *)

Lemma greedy_snoc (gs : list (list string)) (g g' : list string) :
  greedy (gs ++ [g]) ->
  sum_tokens g + tokens (hd EmptyString g') > max_tokens ->
  greedy ((gs ++ [g]) ++ [g']).
Proof.
  intros H Hgt. induction gs as [|a gs IH].
  - simpl. auto.
  - destruct gs as [|b gs].
    + simpl in *. destruct H as [Hab _]. auto.
    + change (greedy (a :: (b :: gs) ++ [g])) in H.
      change (greedy (a :: ((b :: gs) ++ [g]) ++ [g'])).
      simpl in H. destruct H as [Hab H].
      simpl. split; [exact Hab | apply IH; exact H].
Qed.

Lemma greedy_extend_last (gs : list (list string)) (g x : list string) :
  g <> [] -> greedy (gs ++ [g]) -> greedy (gs ++ [g ++ x]).
Proof.
  intros Hg H. induction gs as [|a gs IH].
  - simpl. exact I.
  - destruct gs as [|b gs].
    + simpl in *. destruct H as [Hab _]. split; [|exact I].
      destruct g; [congruence | exact Hab].
    + simpl in H. destruct H as [Hab H].
      simpl. split; [exact Hab | apply IH; exact H].
Qed.

Lemma Fit_init : Fit [] init_state.
Proof. exists []. simpl. repeat split; auto. Qed.

Lemma Fit_step (para : string) (done : list string) (st : loop_state) :
  tokens para <= max_tokens ->
  Fit done st -> Fit (done ++ [para]) (paragraph_step st para).
Proof.
  intros Hfit (gs & Hc & Hne & Hd & Ht & Hgr).
  unfold Parser.paragraph_step.
  destruct (Z.gtb_spec (tokens para) max_tokens) as [Hbad|_]; [lia|].
  destruct (Z.gtb_spec (current_tokens st + tokens para) max_tokens) as [Hgt|Hle].
  - unfold flush, push.
    destruct (current_chunk st) as [|u us] eqn:E.
    + simpl in Ht. lia.
    + exists (gs ++ [u :: us]).
      cbn [chunks current_chunk current_tokens]. repeat split.
      * rewrite map_app, Hc, append_nil_r. reflexivity.
      * apply Forall_app. split; [exact Hne | repeat constructor; discriminate].
      * rewrite concat_app. simpl. rewrite app_nil_r, Hd. reflexivity.
      * simpl. lia.
      * simpl app. apply greedy_snoc; [exact Hgr|].
        simpl hd. rewrite <- Ht. lia.
  - unfold push. cbn [chunks current_chunk current_tokens].
    exists gs. cbn [chunks current_chunk current_tokens]. repeat split; auto.
    + rewrite app_assoc, Hd. reflexivity.
    + rewrite sum_tokens_app, Ht. simpl. lia.
    + destruct (current_chunk st) as [|u us] eqn:E.
      * subst gs. simpl. exact I.
      * change ((u :: us) ++ [para]) with (u :: us ++ [para]).
        change (u :: us ++ [para]) with ((u :: us) ++ [para]).
        destruct ((u :: us) ++ [para]) as [|v vs] eqn:E'; [discriminate|].
        rewrite <- E'. apply greedy_extend_last; [discriminate | exact Hgr].
Qed.

Lemma Fit_fold (paras : list string) :
  Forall (fun p => tokens p <= max_tokens) paras ->
  forall done st,
    Fit done st -> Fit (done ++ paras) (fold_left paragraph_step paras st).
Proof.
  induction 1 as [|p ps Hp Hps IH]; intros done st HF; simpl.
  - rewrite app_nil_r. exact HF.
  - apply (Fit_step p) in HF; [|exact Hp]. apply IH in HF.
    rewrite <- app_assoc in HF. exact HF.
Qed.

(** With plain paragraphs, the chunks are the paragraphs cut into non-empty
    greedy groups, each joined by a blank line. *)
Lemma plain_chunk_groups (text : string) :
  plain_paragraphs text ->
  exists groups : list (list string),
    map Parser.text (chunk_text text) = map (join para_sep) groups /\
    Forall (fun g => g <> []) groups /\
    concat groups = split para_sep text /\
    greedy groups.
Proof.
  intros Hplain. unfold Parser.chunk_text.
  destruct (tokens text <=? max_tokens).
  - exists [split para_sep text]. simpl. repeat split; auto.
    + now rewrite join_split_para.
    + repeat constructor. apply split_go_nonnil.
    + apply app_nil_r.
  - rewrite stamp_text. unfold Parser.chunk_strings.
    assert (Hfits : Forall (fun p => tokens p <= max_tokens) (split para_sep text)).
    { eapply Forall_impl; [|exact Hplain]. intros p [H _]. exact H. }
    destruct (Fit_fold _ Hfits [] init_state Fit_init)
      as (gs & Hc & Hne & Hd & _ & Hgr).
    simpl app in Hd. unfold final_flush.
    destruct (current_chunk (fold_left paragraph_step (split para_sep text) init_state))
      as [|u us] eqn:E.
    + exfalso. subst gs. simpl in Hd.
      apply (split_go_nonnil para_sep text 0 EmptyString). symmetry. exact Hd.
    + assert (Hu : contains_char (ascii_of_nat 10) u = false).
      { assert (Hin : In u (split para_sep text))
          by (rewrite <- Hd; apply in_or_app; right; left; reflexivity).
        exact (proj2 (proj1 (Forall_forall _ _) Hplain u Hin)). }
      rewrite Hu. cbn [negb].
      exists (gs ++ [u :: us]). repeat split.
      * rewrite map_app, Hc. reflexivity.
      * apply Forall_app. split; [exact Hne | repeat constructor; discriminate].
      * rewrite concat_app. simpl. rewrite app_nil_r. exact Hd.
      * exact Hgr.
Qed.

(** *** Completeness *)

Lemma fitting_units (ps : list string) :
  Forall (fun p => tokens p <= max_tokens) ps ->
  flat_map (Parser.para_units count_tokens max_tokens) ps = ps.
Proof.
  induction 1 as [|p ps Hp _ IH]; [reflexivity|].
  simpl. rewrite IH. unfold Parser.para_units.
  destruct (Z.gtb_spec (tokens p) max_tokens); [lia | reflexivity].
Qed.

Lemma fitting_source_units (text : string) :
  no_oversized_paragraph text -> source_units text = split para_sep text.
Proof.
  intros H. unfold Parser.source_units.
  destruct (tokens text <=? max_tokens); [reflexivity|].
  apply fitting_units. exact H.
Qed.

(** Without a paragraph over budget, and with a final flush that joins by a
    blank line, the chunks are the paragraphs cut into non-empty groups, each
    joined by a blank line. *)
Lemma fitting_chunk_groups (text : string) :
  no_oversized_paragraph text ->
  blank_line_final_flush text = true ->
  exists groups : list (list string),
    map Parser.text (chunk_text text) = map (join para_sep) groups /\
    Forall (fun g => g <> []) groups /\
    concat groups = split para_sep text.
Proof.
  intros Hfits Hfinal. unfold Parser.chunk_text.
  destruct (tokens text <=? max_tokens).
  - exists [split para_sep text]. simpl. repeat split.
    + now rewrite join_split_para.
    + repeat constructor. apply split_go_nonnil.
    + apply app_nil_r.
  - rewrite stamp_text. unfold Parser.chunk_strings.
    destruct (Fit_fold _ Hfits [] init_state Fit_init)
      as (gs & Hc & Hne & Hd & _ & Hgr).
    simpl app in Hd. unfold final_flush.
    unfold Grouping.blank_line_final_flush, Grouping.trailing_buffer in Hfinal.
    destruct (current_chunk (fold_left paragraph_step (split para_sep text) init_state))
      as [|u us] eqn:E.
    + exfalso. subst gs. simpl in Hd.
      apply (split_go_nonnil para_sep text 0 EmptyString). symmetry. exact Hd.
    + exists (gs ++ [u :: us]). repeat split.
      * rewrite map_app, Hc. cbn [map]. f_equal.
        destruct us as [|v us].
        -- destruct (negb (contains_char (ascii_of_nat 10) u)); reflexivity.
        -- rewrite Hfinal. reflexivity.
      * apply Forall_app. split; [exact Hne | repeat constructor; discriminate].
      * rewrite concat_app. simpl. rewrite app_nil_r. exact Hd.
Qed.


(** When every paragraph fits the budget and holds no newline, joining the
    chunk texts by blank lines gives the text back. *)
Theorem chunks_rejoin_to_text (text : string) :
  plain_paragraphs text ->
  join para_sep (map Parser.text (chunk_text text)) = text.
Proof.
  intros Hplain.
  destruct (plain_chunk_groups text Hplain) as (gs & Hc & Hne & Hd & _).
  rewrite Hc, join_concat by exact Hne.
  rewrite Hd. apply join_split_para.
Qed.

(** When every paragraph fits the budget and holds no newline, the chunks are
    filled greedily: each holds whole paragraphs, and the first paragraph of
    the next chunk would not have fitted in it. *)
Theorem chunks_are_greedy (text : string) :
  plain_paragraphs text ->
  exists groups : list (list string),
    map Parser.text (chunk_text text) = map (join para_sep) groups /\
    Forall (fun g => g <> []) groups /\
    concat groups = split para_sep text /\
    greedy groups.
Proof. exact (plain_chunk_groups text). Qed.

End Segmenter.

(** ** Concrete runs: what the chunks do not tell *)

(** A sentence cut out of a paragraph that alone exceeds the budget gets a
    closing period and a chunk of its own, as a paragraph ending in a period
    does: one paragraph of two sentences and two paragraphs give the same
    chunks. *)
Example sentences_read_as_paragraphs :
  Parser.chunk_text char_tokenizer 6 two_sentences
  = [mkChunk "aaaa." 5 0 2; mkChunk "bbbb" 4 1 2] /\
  Parser.chunk_text char_tokenizer 6 two_paragraphs
  = [mkChunk "aaaa." 5 0 2; mkChunk "bbbb" 4 1 2].
Proof. split; reflexivity. Qed.

(** The final flush joins two paragraphs by a period and a space when the
    first contains a newline: three paragraphs give the chunks of two. *)
Example paragraphs_merged_by_final_flush :
  Parser.chunk_text char_tokenizer 6 line_break_paragraph
  = Parser.chunk_text char_tokenizer 6 line_break_merged /\
  split para_sep
    (join para_sep
       (map Parser.text (Parser.chunk_text char_tokenizer 6 line_break_paragraph)))
  = ["dddddd"%string; ("a" ++ nl ++ "b. c")%string] /\
  split para_sep line_break_paragraph
  = ["dddddd"%string; ("a" ++ nl ++ "b")%string; "c"%string].
Proof. repeat split; reflexivity. Qed.

(** Two texts with the same chunks: no way of re-joining the chunks gives
    back a reading of the units that tells the two texts apart. *)
Lemma same_chunks_no_rejoin (count_tokens : string -> nat) (max_tokens : Z)
      (a b : string) (units_of : string -> list string) :
  Parser.chunk_text count_tokens max_tokens a
  = Parser.chunk_text count_tokens max_tokens b ->
  units_of a <> units_of b ->
  ~ completeness_claim count_tokens max_tokens units_of.
Proof.
  intros Hsame Hdiff [rejoin H]. apply Hdiff.
  rewrite <- (H a), <- (H b), Hsame. reflexivity.
Qed.



End SegmenterFacts.

(* ================================================================== *)
(** * Reading a document *)
(* ================================================================== *)

Module ExtractFacts.
Import PyStr PyStrFacts PyText Parser ParserFacts Extract.
Local Open Scope list_scope.

Lemma split_go_plain (p : string) :
  newline_free p ->
  forall acc rest,
    split_go para_sep 0 acc (p ++ rest)%string
    = split_go para_sep 0 (acc ++ p)%string rest.
Proof.
  unfold newline_free.
  induction p as [|c p IH]; intros Hp acc rest.
  - simpl. now rewrite append_nil_r.
  - cbn [contains_char] in Hp. apply orb_false_elim in Hp as [Hc Hp].
    change (String c p ++ rest)%string with (String c (p ++ rest)%string).
    cbn [split_go].
    assert (Hpre : prefix para_sep (String c (p ++ rest)) = false).
    { change para_sep
        with (String (ascii_of_nat 10) (String (ascii_of_nat 10) EmptyString)).
      cbn [prefix].
      destruct (ascii_dec (ascii_of_nat 10) c) as [<-|_]; [|reflexivity].
      rewrite Ascii.eqb_refl in Hc. discriminate Hc. }
    rewrite Hpre, IH by exact Hp.
    rewrite append_assoc. reflexivity.
Qed.

Lemma split_go_sep (acc rest : string) :
  split_go para_sep 0 acc (para_sep ++ rest)%string
  = acc :: split_go para_sep 0 EmptyString rest.
Proof. destruct rest; reflexivity. Qed.

(** Splitting what was joined: newline-free paragraphs come back. *)
Lemma split_join_plain (ps : list string) :
  ps <> [] -> Forall newline_free ps ->
  split para_sep (join para_sep ps) = ps.
Proof.
  unfold split. induction ps as [|p ps IH]; intros Hne H; [congruence|].
  pose proof (Forall_inv H) as Hp. pose proof (Forall_inv_tail H) as Hps.
  destruct ps as [|q ps].
  - simpl join. rewrite <- (append_nil_r p) at 1.
    rewrite split_go_plain by exact Hp. reflexivity.
  - rewrite join_cons by discriminate.
    rewrite split_go_plain by exact Hp.
    rewrite split_go_sep. simpl append.
    rewrite IH by (auto; discriminate). reflexivity.
Qed.

(** What [chunk_text] splits is what [extract_text] joined: when no kept
    paragraph holds a newline (a dropped one may), the paragraphs of the
    extracted text are the non-blank paragraphs of the document, in order (one
    empty paragraph when there is none). *)
Theorem extracted_paragraphs (f : docx_file) (texts : list string) (text : string) :
  document f = Returns texts ->
  extract_text f = Returns text ->
  Forall newline_free (filter (fun t => nonempty (strip t)) texts) ->
  split para_sep text
  = match filter (fun t => nonempty (strip t)) texts with
    | [] => [EmptyString]
    | kept => kept
    end.
Proof.
  intros Hdoc Hex Hkept. unfold extract_text in Hex. rewrite Hdoc in Hex.
  destruct (negb (exists_ f)); [discriminate|].
  destruct (negb (lower (suffix f) =? ".docx")%string); [discriminate|].
  injection Hex as <-.
  destruct (filter (fun t => nonempty (strip t)) texts) as [|k ks] eqn:E;
    [reflexivity|].
  apply split_join_plain; [discriminate | exact Hkept].
Qed.

Lemma extracted_paragraphs_witness :
  document (readable "report.docx" ["Title"; nl; "Body text."]%string)
    = Returns ["Title"; nl; "Body text."]%string /\
  extract_text (readable "report.docx" ["Title"; nl; "Body text."]%string)
    = Returns ("Title" ++ nl ++ nl ++ "Body text.")%string /\
  Forall newline_free
         (filter (fun t => nonempty (strip t)) ["Title"; nl; "Body text."]%string) /\
  split para_sep ("Title" ++ nl ++ nl ++ "Body text.")%string
  = ["Title"; "Body text."]%string.
Proof.
  assert (Hnl : Forall newline_free
                  (filter (fun t => nonempty (strip t))
                          ["Title"; nl; "Body text."]%string))
    by (repeat constructor).
  split; [reflexivity|]. split; [reflexivity|]. split; [exact Hnl|].
  exact (extracted_paragraphs
           (readable "report.docx" ["Title"; nl; "Body text."]%string)
           _ _ eq_refl eq_refl Hnl).
Defined.

(** A readable document with no non-blank paragraph is not skipped: it is
    parsed into one chunk holding the empty text. *)
Theorem blank_document_yields_one_chunk
    (count_tokens : string -> nat) (max_tokens : Z)
    (f : docx_file) (texts : list string) :
  exists_ f = true ->
  lower (suffix f) = ".docx"%string ->
  document f = Returns texts ->
  Forall (fun t => strip t = EmptyString) texts ->
  Parser.tokens count_tokens EmptyString <= max_tokens ->
  parse count_tokens max_tokens f
  = Returns [mkChunk EmptyString (Parser.tokens count_tokens EmptyString) 0 1].
Proof.
  intros Hex Hsuf Hdoc Hblank Hfit.
  unfold parse, extract_text. rewrite Hex, Hsuf, Hdoc, String.eqb_refl. cbn [negb].
  assert (Hnone : filter (fun t => nonempty (strip t)) texts = []).
  { clear - Hblank. induction Hblank as [|t ts Ht _ IH]; [reflexivity|].
    simpl. rewrite Ht. exact IH. }
  rewrite Hnone. change (join para_sep []) with EmptyString.
  rewrite (SegmenterFacts.chunk_text_shortcut _ _ _ Hfit). reflexivity.
Qed.

End ExtractFacts.

(* ================================================================== *)
(** * More on scores *)
(* ================================================================== *)

Module ScoreFacts.
Import PyStr Parser Evaluator AggregatorFacts.
Local Open Scope list_scope.

(** A score survives the trip through its dictionary, which lists the seven
    dimensions in their fixed order. *)
Theorem from_dict_to_dict (e : DocumentEvaluation) :
  from_dict (to_dict e) = e /\ map fst (to_dict e) = map key dimensions.
Proof. destruct e; split; reflexivity. Qed.

End ScoreFacts.

(* ================================================================== *)
(** * More on the retry loop *)
(* ================================================================== *)

Module RetryFacts.
Import PyStr Parser Evaluator EvaluatorFacts Retry.
Local Open Scope list_scope.

Section Scorer.

Variable create : nat -> string -> outcome string.
Variable json_loads : string -> outcome json.
Variable max_retries : Z.

Local Abbreviation attempt_once := (Evaluator.attempt_once create json_loads).
Local Abbreviation retry_loop := (Evaluator.retry_loop create json_loads max_retries).

Lemma attempt_once_world (prompt : string) (w : world) :
  snd (attempt_once prompt w)
  = mkWorld (requests w ++ [prompt]) (slept w) (printed w).
Proof.
  unfold Evaluator.attempt_once.
  destruct (create _ prompt) as [content|e]; [|reflexivity].
  destruct (json_loads content); reflexivity.
Qed.

Local Abbreviation retry_events := (Retry.retry_events create json_loads max_retries).

(** The run of the loop in order: the events are those the world records,
    no attempt gives no event, and otherwise requests and sleeps alternate,
    beginning and ending with a request. *)
Lemma retry_loop_log (prompt : string) :
  forall (remaining : nat) (attempt : Z) (w : world),
    max_retries = attempt + Z.of_nat remaining -> 0 <= attempt ->
    snd (retry_loop remaining attempt prompt w)
    = mkWorld (requests w ++ requests_of (retry_events remaining attempt prompt w))
              (slept w ++ sleeps_of (retry_events remaining attempt prompt w))
              (printed w) /\
    (remaining <> O ->
     fst (retry_loop remaining attempt prompt w) <> Returns None /\
     exists sl : list Z,
       retry_events remaining attempt prompt w = alternating prompt sl /\
       (List.length sl < remaining)%nat /\
       Forall (fun s => 1 <= s) sl).
Proof.
  induction remaining as [|r IH]; intros attempt w Hmax Hatt.
  - simpl. destruct w; simpl. rewrite !app_nil_r. split; [reflexivity | congruence].
  - cbn [Evaluator.retry_loop Retry.retry_events].
    pose proof (attempt_once_world prompt w) as Hw1.
    destruct (attempt_once prompt w) as [res w1]. simpl in Hw1. subst w1.
    assert (Hpow : 1 <= 2 ^ attempt)
      by (pose proof (Z.pow_pos_nonneg 2 attempt); lia).
    assert (Hstop : forall res' : outcome (option DocumentEvaluation),
              res' <> Returns None ->
              snd (res', mkWorld (requests w ++ [prompt]) (slept w) (printed w))
              = mkWorld (requests w ++ requests_of [Requested prompt])
                        (slept w ++ sleeps_of [Requested prompt]) (printed w) /\
              (S r <> O ->
               fst (res', mkWorld (requests w ++ [prompt]) (slept w) (printed w))
               <> Returns None /\
               exists sl : list Z,
                 [Requested prompt] = alternating prompt sl /\
                 (List.length sl < S r)%nat /\ Forall (fun s => 1 <= s) sl)).
    { intros res' Hres. simpl. rewrite app_nil_r.
      split; [reflexivity|]. intros _. split; [exact Hres|].
      exists []. split; [reflexivity|]. split; [simpl; lia | constructor]. }
    assert (Hretry : forall s, 1 <= s -> attempt < max_retries - 1 ->
              snd (retry_loop r (attempt + 1) prompt
                     (sleep s (mkWorld (requests w ++ [prompt]) (slept w) (printed w))))
              = mkWorld
                  (requests w
                   ++ requests_of
                        (Requested prompt :: Slept s
                         :: retry_events r (attempt + 1) prompt
                              (sleep s (mkWorld (requests w ++ [prompt]) (slept w)
                                                (printed w)))))
                  (slept w
                   ++ sleeps_of
                        (Requested prompt :: Slept s
                         :: retry_events r (attempt + 1) prompt
                              (sleep s (mkWorld (requests w ++ [prompt]) (slept w)
                                                (printed w)))))
                  (printed w) /\
              (S r <> O ->
               fst (retry_loop r (attempt + 1) prompt
                      (sleep s (mkWorld (requests w ++ [prompt]) (slept w) (printed w))))
               <> Returns None /\
               exists sl : list Z,
                 Requested prompt :: Slept s
                 :: retry_events r (attempt + 1) prompt
                      (sleep s (mkWorld (requests w ++ [prompt]) (slept w) (printed w)))
                 = alternating prompt sl /\
                 (List.length sl < S r)%nat /\ Forall (fun s => 1 <= s) sl)).
    { intros s Hs Hlt.
      destruct (IH (attempt + 1)
                   (sleep s (mkWorld (requests w ++ [prompt]) (slept w) (printed w))))
        as (Hw & Hpos); [lia | lia |].
      destruct Hpos as (Hres & sl & Hlog & Hlen & Hall); [lia|].
      split.
      - rewrite Hw. unfold sleep. simpl. rewrite <- !app_assoc. reflexivity.
      - intros _. split; [exact Hres|].
        exists (s :: sl). rewrite Hlog. split; [reflexivity|].
        split; [simpl; lia | constructor; assumption]. }
    destruct res as [ev|e]; [apply Hstop; discriminate|].
    destruct (dispatch e).
    + destruct (Z.ltb_spec attempt (max_retries - 1));
        [apply Hretry; assumption | apply Hstop; discriminate].
    + destruct (Z.ltb_spec attempt (max_retries - 1));
        [apply Hretry; [lia | assumption] | apply Hstop; discriminate].
    + destruct (Z.ltb_spec attempt (max_retries - 1));
        [apply Hretry; [lia | assumption] | apply Hstop; discriminate].
    + apply Hstop; discriminate.
Qed.

(** Started as [evaluate_chunk] starts it, the loop sends no request when no
    attempt is allowed; otherwise its requests and sleeps alternate, from a
    first request to a last one, with fewer than [max_retries] sleeps between
    them, so at most [max_retries] requests, all with the same prompt and each
    sleep of at least a second.  The world records these requests and sleeps,
    and no warning. *)
Theorem retry_loop_is_bounded (prompt : string) (w : world) :
  snd (retry_loop (Z.to_nat max_retries) 0 prompt w)
  = mkWorld
      (requests w ++ requests_of (retry_events (Z.to_nat max_retries) 0 prompt w))
      (slept w ++ sleeps_of (retry_events (Z.to_nat max_retries) 0 prompt w))
      (printed w) /\
  (max_retries <= 0 -> retry_events (Z.to_nat max_retries) 0 prompt w = []) /\
  (0 < max_retries ->
   exists sl : list Z,
     retry_events (Z.to_nat max_retries) 0 prompt w = alternating prompt sl /\
     Z.of_nat (List.length sl) < max_retries /\
     Forall (fun s => 1 <= s) sl).
Proof.
  destruct (Z.le_gt_cases max_retries 0) as [Hneg|Hpos].
  - replace (Z.to_nat max_retries) with O by lia.
    simpl. destruct w; simpl. rewrite !app_nil_r.
    split; [reflexivity|]. split; [reflexivity | lia].
  - destruct (retry_loop_log prompt (Z.to_nat max_retries) 0 w)
      as (Hw & Hlog); [lia | lia |].
    split; [exact Hw|]. split; [lia|]. intros _.
    destruct Hlog as (_ & sl & Hsl & Hlen & Hall); [lia|].
    exists sl. split; [exact Hsl|]. split; [lia | exact Hall].
Qed.

(** The loop ends without a score and without an exception exactly when no
    attempt is allowed, and then nothing was requested. *)
Theorem retry_loop_returns_none_iff (prompt : string) (w : world) :
  (fst (retry_loop (Z.to_nat max_retries) 0 prompt w) = Returns None
   <-> max_retries <= 0) /\
  (max_retries <= 0 -> snd (retry_loop (Z.to_nat max_retries) 0 prompt w) = w).
Proof.
  destruct (Z.le_gt_cases max_retries 0) as [Hle|Hgt].
  - replace (Z.to_nat max_retries) with O by lia. simpl.
    split; [split; auto | auto].
  - destruct (retry_loop_log prompt (Z.to_nat max_retries) 0 w)
      as (_ & Hpos); [lia | lia |].
    destruct Hpos as [Hres _]; [lia|].
    split; [split; [intros H; contradiction | lia] | lia].
Qed.

(** *** Exhaustion on transient failures *)

Lemma retry_loop_on_transient (e : exn) (prompt : string) (w : world)
      (remaining : nat) (attempt : Z) :
  transient e ->
  create (List.length (requests w)) prompt = Raises e ->
  let w' := mkWorld (requests w ++ [prompt]) (slept w) (printed w) in
  retry_loop (S remaining) attempt prompt w
  = if attempt <? max_retries - 1
    then retry_loop remaining (attempt + 1) prompt (sleep 1 w')
    else (Raises (Exception (transient_label e ++ str_of_int max_retries
                             ++ " retries: " ++ exn_str e)%string), w').
Proof.
  intros Ht H w'. cbn [Evaluator.retry_loop].
  rewrite (attempt_once_raises _ _ _ _ _ H).
  unfold transient_label. destruct Ht as [Ht|Ht]; rewrite Ht; reflexivity.
Qed.

Lemma retry_loop_transient (e : exn) (prompt : string) :
  transient e ->
  (forall n p, create n p = Raises e) ->
  forall (n : nat) (attempt : Z) (w : world),
    max_retries = attempt + Z.of_nat (S n) ->
    retry_loop (S n) attempt prompt w
    = (Raises (Exception (transient_label e ++ str_of_int max_retries
                          ++ " retries: " ++ exn_str e)%string),
       mkWorld (requests w ++ repeat prompt (S n))
               (slept w ++ repeat 1 n)
               (printed w)).
Proof.
  intros Ht Hall. induction n as [|n IH]; intros attempt w Hmax.
  - rewrite (retry_loop_on_transient e) by auto.
    destruct (Z.ltb_spec attempt (max_retries - 1)) as [Hlt|_]; [lia|].
    simpl. now rewrite app_nil_r.
  - rewrite (retry_loop_on_transient e) by auto.
    destruct (Z.ltb_spec attempt (max_retries - 1)) as [_|Hge]; [|lia].
    rewrite IH by lia. unfold sleep. cbn [requests slept printed repeat].
    now rewrite <- !app_assoc.
Qed.


(** *** Recovery *)

Lemma retry_loop_recovers (prompt content : string) (d : list (string * Q)) :
  json_loads content = Returns (JObject d) ->
  forall (k remaining : nat) (attempt : Z) (w : world),
    (k < remaining)%nat ->
    max_retries = attempt + Z.of_nat remaining ->
    (forall i, (i < k)%nat ->
       exists msg, create (List.length (requests w) + i) prompt
                   = Raises (RateLimitError msg)) ->
    create (List.length (requests w) + k) prompt = Returns content ->
    retry_loop remaining attempt prompt w
    = (Returns (Some (from_dict d)),
       mkWorld (requests w ++ repeat prompt (S k))
               (slept w ++ backoffs attempt k)
               (printed w)).
Proof.
  intros Hjson. induction k as [|k IH]; intros remaining attempt w Hk Hmax Hfail Hok.
  - destruct remaining as [|r]; [lia|].
    rewrite Nat.add_0_r in Hok.
    destruct (retry_loop_reply create json_loads max_retries prompt content w
                r attempt Hok) as (Hobj & _).
    rewrite (Hobj d Hjson). simpl. now rewrite app_nil_r.
  - destruct remaining as [|r]; [lia|].
    destruct (Hfail O) as [msg Hmsg]; [lia|]. rewrite Nat.add_0_r in Hmsg.
    rewrite (retry_loop_on_rate_limit create json_loads max_retries msg) by exact Hmsg.
    destruct (Z.ltb_spec attempt (max_retries - 1)) as [_|Hge]; [|lia].
    rewrite IH; unfold sleep; cbn [requests slept printed]; try lia.
    + cbn [backoffs repeat]. now rewrite <- !app_assoc.
    + intros i Hi. rewrite length_app. simpl.
      replace (List.length (requests w) + 1 + i)%nat
        with (List.length (requests w) + S i)%nat by lia.
      apply Hfail. lia.
    + rewrite length_app. simpl.
      replace (List.length (requests w) + 1 + k)%nat
        with (List.length (requests w) + S k)%nat by lia.
      exact Hok.
Qed.

(** When the first [k] requests are rate limited and the next one is answered
    with an object, with [k] below [max_retries], the loop returns the score
    of that object after [k + 1] requests and sleeps of 1, 2, 4, ... seconds. *)
Theorem rate_limits_then_success
    (prompt content : string) (d : list (string * Q)) (k : nat) (w : world) :
  Z.of_nat k < max_retries ->
  (forall i, (i < k)%nat ->
     exists msg, create (List.length (requests w) + i) prompt
                 = Raises (RateLimitError msg)) ->
  create (List.length (requests w) + k) prompt = Returns content ->
  json_loads content = Returns (JObject d) ->
  retry_loop (Z.to_nat max_retries) 0 prompt w
  = (Returns (Some (from_dict d)),
     mkWorld (requests w ++ repeat prompt (S k))
             (slept w ++ backoffs 0 k)
             (printed w)).
Proof.
  intros Hk Hfail Hok Hjson.
  apply (retry_loop_recovers prompt content d Hjson); auto; lia.
Qed.

End Scorer.

End RetryFacts.

(* ================================================================== *)
(** * More on the orchestrator and the document loop *)
(* ================================================================== *)

Module OrchestratorFacts.
Import PyStr Parser Evaluator Output Main Batch EvaluatorFacts.
Local Open Scope list_scope.

Section AnyEvaluator.

Variable evaluate :
  DocumentChunk -> world -> outcome (option DocumentEvaluation) * world.

Lemma survivors_nonempty_iff (chunks : list DocumentChunk) :
  forall w,
    survivors chunks (chunk_outcomes evaluate chunks w) <> [] <->
    Exists (fun o => exists e, o = Returns (Some e))
           (chunk_outcomes evaluate chunks w).
Proof.
  induction chunks as [|c chunks IH]; intros w; simpl.
  - split; [congruence | intros H; inversion H].
  - destruct (evaluate c w) as [[[e|]|x] w1]; simpl.
    + split; [intros _; left; eexists; reflexivity | discriminate].
    + rewrite IH. split; [intros H; right; exact H|].
      intros H. inversion H as [? ? [e He]|? ? H']; [discriminate | exact H'].
    + rewrite IH. split; [intros H; right; exact H|].
      intros H. inversion H as [? ? [e He]|? ? H']; [discriminate | exact H'].
Qed.

(** When no chunk evaluation returns a score (each returns [None] or raises),
    the loop over the chunks raises its all-chunks-failed exception.  When at
    least one does, the loop hands the scored chunks, in chunk order and each
    with the token count of its chunk as weight, to [weighted_average], and
    its outcome is the outcome of that call. *)
Theorem composite_of_scored_chunks (chunks : list DocumentChunk) (w : world) :
  (~ Exists (fun o => exists e, o = Returns (Some e))
            (chunk_outcomes evaluate chunks w) ->
   fst (evaluate_chunks_with evaluate chunks w)
   = Raises (Exception "Failed to evaluate any chunks in the document")) /\
  (Exists (fun o => exists e, o = Returns (Some e))
          (chunk_outcomes evaluate chunks w) ->
   survivors chunks (chunk_outcomes evaluate chunks w) <> [] /\
   fst (evaluate_chunks_with evaluate chunks w)
   = weighted_average (survivors chunks (chunk_outcomes evaluate chunks w))).
Proof.
  rewrite <- survivors_nonempty_iff.
  rewrite (evaluate_chunks_with_survivors evaluate chunks w).
  destruct (survivors chunks (chunk_outcomes evaluate chunks w)) as [|s l].
  - split; [reflexivity | congruence].
  - split; [intros H; exfalso; apply H; discriminate|].
    intros _. split; [discriminate | reflexivity].
Qed.

End AnyEvaluator.

Section Services.

Variable count_tokens : string -> nat.
Variable max_tokens : Z.
Variable create : nat -> string -> outcome string.
Variable json_loads : string -> outcome json.
Variable max_retries : Z.

Local Abbreviation evaluate_chunk := (Evaluator.evaluate_chunk create json_loads max_retries).
Local Abbreviation evaluate_chunks := (Evaluator.evaluate_chunks create json_loads max_retries).
Local Abbreviation evaluate_document :=
  (Main.evaluate_document count_tokens max_tokens create json_loads max_retries).
Local Abbreviation evaluate_documents :=
  (Batch.evaluate_documents count_tokens max_tokens create json_loads max_retries).
Local Abbreviation key_error :=
  (KeyError (nl ++ "  " ++ dq ++ "relevance" ++ dq)%string).

Lemma chunk_loop_all_fail (chunks : list DocumentChunk) :
  forall acc w,
    fold_left (chunk_step evaluate_chunk) chunks (acc, w)
    = (acc,
       mkWorld (requests w) (slept w)
               (printed w
                ++ map (fun c => (chunk_index c + 1, total_chunks c, key_error))
                       chunks)).
Proof.
  induction chunks as [|c chunks IH]; intros acc w; cbn [fold_left map].
  - rewrite app_nil_r. destruct w; reflexivity.
  - assert (Hstep : chunk_step evaluate_chunk (acc, w) c
                    = (acc, print_warning (chunk_index c + 1) (total_chunks c)
                                          key_error w)).
    { unfold chunk_step. now rewrite evaluate_chunk_raises. }
    rewrite Hstep, IH. unfold print_warning. cbn [requests slept printed].
    rewrite <- app_assoc. reflexivity.
Qed.

(** As the prompt is written, [evaluate_chunk] raises [KeyError] at line 152
    for every chunk, before any request.  So whatever the chunks, the service
    and the number of attempts, [evaluate_chunks] sends no request and sleeps
    nothing, catches that [KeyError] once per chunk and prints its warning, in
    chunk order, and raises the all-chunks-failed exception. *)
Theorem evaluate_chunks_always_fails (chunks : list DocumentChunk) (w : world) :
  evaluate_chunks chunks w
  = (Raises (Exception "Failed to evaluate any chunks in the document"),
     mkWorld (requests w) (slept w)
             (printed w
              ++ map (fun c => (chunk_index c + 1, total_chunks c, key_error))
                     chunks)).
Proof.
  unfold Evaluator.evaluate_chunks, evaluate_chunks_with.
  rewrite chunk_loop_all_fail. reflexivity.
Qed.

Lemma evaluate_document_fails (doc_path : string) (extracted : outcome string)
      (w : world) :
  fst (evaluate_document doc_path extracted w)
  = mkResult doc_path None "error"
             (Some match extracted with
                   | Returns _ => "Failed to evaluate any chunks in the document"%string
                   | Raises e => exn_str e
                   end) /\
  requests (snd (evaluate_document doc_path extracted w)) = requests w /\
  slept (snd (evaluate_document doc_path extracted w)) = slept w.
Proof.
  unfold Main.evaluate_document, parse.
  destruct extracted as [text|e]; [|auto].
  unfold Evaluator.evaluate_chunks, evaluate_chunks_with.
  rewrite chunk_loop_all_fail. auto.
Qed.

(** No document is ever reported as a success: the result has status error
    and no evaluation, its message is that of the reading failure or the
    all-chunks-failed message, and no request was sent for it. *)
Theorem document_is_never_scored (doc_path : string) (extracted : outcome string)
      (w : world) :
  fst (evaluate_document doc_path extracted w)
  = mkResult doc_path None "error"
             (Some match extracted with
                   | Returns _ => "Failed to evaluate any chunks in the document"%string
                   | Raises e => exn_str e
                   end) /\
  requests (snd (evaluate_document doc_path extracted w)) = requests w /\
  slept (snd (evaluate_document doc_path extracted w)) = slept w.
Proof. exact (evaluate_document_fails doc_path extracted w). Qed.

Lemma document_loop (documents : list (string * outcome string)) :
  forall results w,
    map filename (fst (fold_left
                         (document_step count_tokens max_tokens create json_loads
                                        max_retries)
                         documents (results, w)))
    = map filename results ++ map fst documents /\
    successful (fst (fold_left
                       (document_step count_tokens max_tokens create json_loads
                                      max_retries)
                       documents (results, w)))
    = successful results.
Proof.
  induction documents as [|doc docs IH]; intros results w; cbn [fold_left map].
  - rewrite app_nil_r. auto.
  - destruct (evaluate_document_fails (fst doc) (snd doc) w) as (Hr & _).
    assert (Hstep : exists w1,
              document_step count_tokens max_tokens create json_loads max_retries
                            (results, w) doc
              = (results ++ [fst (evaluate_document (fst doc) (snd doc) w)], w1)).
    { unfold document_step.
      destruct (evaluate_document (fst doc) (snd doc) w) as [r w1].
      eexists; reflexivity. }
    destruct Hstep as [w1 Hstep]. rewrite Hstep, Hr.
    destruct (IH (results ++ [mkResult (fst doc) None "error"
                                (Some match snd doc with
                                      | Returns _ => "Failed to evaluate any chunks in the document"%string
                                      | Raises e => exn_str e
                                      end)]) w1) as [Hn Hs].
    rewrite Hn, Hs. split.
    + rewrite map_app. simpl. now rewrite <- app_assoc.
    + unfold successful. rewrite filter_app. simpl. now rewrite app_nil_r.
Qed.

(** A run over a list of documents gives one result per document, in the
    order of the list and under its path, and its summary counts no success:
    every document is counted as failed. *)
Theorem batch_reports_every_document (documents : list (string * outcome string))
      (w : world) :
  map filename (fst (evaluate_documents documents w)) = map fst documents /\
  successful (fst (evaluate_documents documents w)) = 0 /\
  failed (fst (evaluate_documents documents w)) = Z.of_nat (List.length documents).
Proof.
  unfold Batch.evaluate_documents.
  destruct (document_loop documents [] w) as [Hn Hs]. simpl in Hn.
  repeat split; auto.
  unfold failed. rewrite Hs.
  rewrite <- (length_map filename), Hn, length_map. unfold successful. simpl. lia.
Qed.

End Services.

End OrchestratorFacts.

(* ================================================================== *)
(** * Configuration, discovery and the CSV row *)
(* ================================================================== *)

Module ConfigFacts.
Import PyStr PyText Config.
Local Open Scope list_scope.

Section Environment.

Variable getenv : string -> option string.

Local Abbreviation from_env := (Config.from_env getenv).
Local Abbreviation from_args := (Config.from_args getenv).

Lemma all_set_spec (a b c : option string) :
  match all_set a b c with
  | Some (x, y, z) =>
      a = Some x /\ b = Some y /\ c = Some z /\
      x <> EmptyString /\ y <> EmptyString /\ z <> EmptyString
  | None => truthy a = false \/ truthy b = false \/ truthy c = false
  end.
Proof.
  unfold all_set, truthy.
  destruct a as [[|? x]|], b as [[|? y]|], c as [[|? z]|]; simpl; auto;
    repeat split; auto; discriminate.
Qed.

(** Each setting of a configuration returned by [from_args] is the argument
    given for it when that is a non-empty string and otherwise the value of
    its environment variable, and is never empty; [from_args] fails, with a
    [ValueError], exactly when a setting is found in neither place. *)
Theorem from_args_resolves (api_key endpoint deployment api_version : option string) :
  match from_args api_key endpoint deployment api_version with
  | Returns c =>
      py_or api_key (getenv "AZURE_OPENAI_API_KEY") = Some (Config.api_key c) /\
      py_or endpoint (getenv "AZURE_OPENAI_ENDPOINT") = Some (Config.endpoint c) /\
      py_or deployment (getenv "AZURE_OPENAI_DEPLOYMENT") = Some (Config.deployment c) /\
      Config.api_key c <> EmptyString /\ Config.endpoint c <> EmptyString /\
      Config.deployment c <> EmptyString
  | Raises e =>
      (exists msg, e = ValueError msg) /\
      (truthy (py_or api_key (getenv "AZURE_OPENAI_API_KEY")) = false \/
       truthy (py_or endpoint (getenv "AZURE_OPENAI_ENDPOINT")) = false \/
       truthy (py_or deployment (getenv "AZURE_OPENAI_DEPLOYMENT")) = false)
  end.
Proof.
  unfold Config.from_args.
  pose proof (all_set_spec (py_or api_key (getenv "AZURE_OPENAI_API_KEY"))
                           (py_or endpoint (getenv "AZURE_OPENAI_ENDPOINT"))
                           (py_or deployment (getenv "AZURE_OPENAI_DEPLOYMENT"))) as H.
  destruct (all_set _ _ _) as [[[k e] d]|].
  - cbn [Config.api_key Config.endpoint Config.deployment].
    destruct H as (H1 & H2 & H3 & H4 & H5 & H6). auto 10.
  - split; [eexists; reflexivity | exact H].
Qed.

(** Without arguments, [from_args] returns a configuration exactly when
    [from_env] returns it. *)
Theorem from_args_without_arguments (c : AzureOpenAIConfig) :
  from_args None None None None = Returns c <-> from_env = Returns c.
Proof.
  unfold Config.from_args, Config.from_env, py_or. cbn [truthy].
  destruct (all_set _ _ _) as [[[k e] d]|]; [reflexivity|].
  split; discriminate.
Qed.

End Environment.

(** An argument wins over the environment; an empty argument does not. *)
Example from_args_precedence :
  Config.from_args sample_env (Some "cli-key") (Some EmptyString) None None
  = Returns (mkConfig "cli-key" "https://env.example" "env-deployment"
                      "2024-02-15-preview").
Proof. reflexivity. Qed.

End ConfigFacts.

Module ScannerFacts.
Import PyStr PyText Scanner.
Local Open Scope list_scope.

(** [str.lower] leaves what it returns unchanged. *)
Lemma lower_char_idempotent (c : ascii) : lower_char (lower_char c) = lower_char c.
Proof.
  destruct c as [b0 b1 b2 b3 b4 b5 b6 b7].
  destruct b0, b1, b2, b3, b4, b5, b6, b7; reflexivity.
Qed.

Lemma lower_is_lowered (s : string) (c : ascii) :
  contains_char c (lower s) = true -> lower_char c = c.
Proof.
  induction s as [|x s IH]; simpl; [discriminate|].
  intros H. apply orb_true_iff in H as [H|H]; [|exact (IH H)].
  apply Ascii.eqb_eq in H. subst c. apply lower_char_idempotent.
Qed.

Lemma str_in_In (x : string) (xs : list string) :
  str_in x xs = true -> In x xs.
Proof.
  induction xs as [|y xs IH]; simpl; [discriminate|].
  intros H. apply orb_true_iff in H as [H|H].
  - left. symmetry. now apply String.eqb_eq.
  - right. exact (IH H).
Qed.

(** The suffix is lower-cased before it is looked up, the extensions are
    not: when every configured extension holds a character that [str.lower]
    changes, such as a capital of [.DOCX], [scan_file] accepts no file at
    all.  Strings are over the code points below 256. *)
Theorem capital_extensions_match_nothing (extensions : list string) (p : file_path) :
  Forall (fun ext => exists c, lower_char c <> c /\ contains_char c ext = true)
         extensions ->
  forall files, scan_file extensions p <> Returns files.
Proof.
  intros Hcap files. unfold scan_file.
  destruct (negb (Scanner.exists_ p)); [discriminate|].
  destruct (negb (is_file p)); [discriminate|].
  destruct (str_in (lower (suffix p)) extensions) eqn:E; [|discriminate].
  exfalso. apply str_in_In in E.
  destruct (proj1 (Forall_forall _ _) Hcap _ E) as (c & Hup & Hin).
  apply lower_is_lowered in Hin. congruence.
Qed.

Lemma capital_extensions_match_nothing_witness :
  Forall (fun ext => exists c, lower_char c <> c /\ contains_char c ext = true)
         [".DOCX"%string] /\
  forall files,
    scan_file [".DOCX"%string] (mkPath "Report.DOCX" true true ".DOCX")
    <> Returns files.
Proof.
  assert (H : Forall (fun ext => exists c, lower_char c <> c /\ contains_char c ext = true)
                     [".DOCX"%string]).
  { repeat constructor. exists "D"%char. split; [discriminate | reflexivity]. }
  split; [exact H | apply capital_extensions_match_nothing; exact H].
Defined.

End ScannerFacts.

Module RowFacts.
Import PyStr Evaluator Output.
Local Open Scope list_scope.

(** The flat dictionary of any result has exactly the CSV field names as its
    keys, in their order, and its row reads: file name, the seven scores in
    the order of the header (0 for each when there is no evaluation), status,
    and the error message or the empty string. *)
Theorem csv_row_of_result (r : EvaluationResult) :
  map fst (to_flat_dict r) = FIELDNAMES /\
  csv_row (to_flat_dict r)
  = CStr (filename r)
    :: map (fun d => CNum match evaluation r with
                          | Some e => getattr e d
                          | None => 0%Q
                          end) dimensions
    ++ [CStr (status r);
        CStr match error_message r with Some m => m | None => EmptyString end].
Proof.
  destruct r as [fn [e|] st [[|c m]|]]; split; reflexivity.
Qed.

End RowFacts.

(* ================================================================== *)
(** * Concrete instances *)
(* ================================================================== *)

Module Instances.
Import PyStr PyText Parser Evaluator Output Main Extract Grouping Retry.
Import SegmenterFacts ExtractFacts RetryFacts.
Local Open Scope list_scope.

Lemma three_paragraphs_plain : plain_paragraphs char_tokenizer 2 three_paragraphs.
Proof. unfold plain_paragraphs. vm_compute split. repeat constructor; discriminate. Qed.

Lemma chunk_positions_witness :
  In (mkChunk "c" 1 1 2) (chunk_text char_tokenizer 2 three_paragraphs) /\
  0 <= chunk_index (mkChunk "c" 1 1 2) < total_chunks (mkChunk "c" 1 1 2) /\
  total_chunks (mkChunk "c" 1 1 2)
  = Z.of_nat (List.length (chunk_text char_tokenizer 2 three_paragraphs)) /\
  nth_error (chunk_text char_tokenizer 2 three_paragraphs)
            (Z.to_nat (chunk_index (mkChunk "c" 1 1 2)))
  = Some (mkChunk "c" 1 1 2).
Proof.
  assert (H : In (mkChunk "c" 1 1 2) (chunk_text char_tokenizer 2 three_paragraphs))
    by (right; left; reflexivity).
  split; [exact H | exact (chunk_positions char_tokenizer 2 three_paragraphs _ H)].
Defined.

Lemma chunks_rejoin_to_text_witness :
  plain_paragraphs char_tokenizer 2 three_paragraphs /\
  join para_sep (map Parser.text (chunk_text char_tokenizer 2 three_paragraphs))
  = three_paragraphs.
Proof.
  split; [exact three_paragraphs_plain|].
  apply chunks_rejoin_to_text. exact three_paragraphs_plain.
Defined.

Lemma chunks_are_greedy_witness :
  plain_paragraphs char_tokenizer 2 three_paragraphs /\
  exists groups : list (list string),
    map Parser.text (chunk_text char_tokenizer 2 three_paragraphs)
    = map (join para_sep) groups /\
    Forall (fun g => g <> []) groups /\
    concat groups = split para_sep three_paragraphs /\
    greedy char_tokenizer 2 groups.
Proof.
  split; [exact three_paragraphs_plain|].
  apply chunks_are_greedy. exact three_paragraphs_plain.
Defined.

Lemma blank_document_yields_one_chunk_witness :
  Extract.exists_ (readable "empty.docx" [" "; EmptyString]%string) = true /\
  lower (Extract.suffix (readable "empty.docx" [" "; EmptyString]%string))
  = ".docx"%string /\
  document (readable "empty.docx" [" "; EmptyString]%string)
  = Returns [" "; EmptyString]%string /\
  Forall (fun t => strip t = EmptyString) [" "; EmptyString]%string /\
  Parser.tokens char_tokenizer EmptyString <= 4000 /\
  parse char_tokenizer 4000 (readable "empty.docx" [" "; EmptyString]%string)
  = Returns [mkChunk EmptyString (Parser.tokens char_tokenizer EmptyString) 0 1].
Proof.
  assert (Hb : Forall (fun t => strip t = EmptyString) [" "; EmptyString]%string)
    by (repeat constructor).
  assert (Hf : Parser.tokens char_tokenizer EmptyString <= 4000)
    by (vm_compute; discriminate).
  repeat (split; [first [reflexivity | exact Hb | exact Hf]|]).
  exact (blank_document_yields_one_chunk char_tokenizer 4000
           (readable "empty.docx" [" "; EmptyString]%string) _
           eq_refl eq_refl eq_refl Hb Hf).
Defined.


Lemma rate_limits_then_success_witness :
  Z.of_nat 3 < 5 /\
  (forall i, (i < 3)%nat ->
     exists msg,
       second_chunk_rate_limited
         (List.length (requests (mkWorld ["earlier"%string] [] [])) + i) "prompt"
       = Raises (RateLimitError msg)) /\
  second_chunk_rate_limited
    (List.length (requests (mkWorld ["earlier"%string] [] [])) + 3) "prompt"
  = Returns "scores"%string /\
  loads_all_fives "scores" = Returns (JObject all_fives) /\
  retry_loop second_chunk_rate_limited loads_all_fives 5 (Z.to_nat 5) 0 "prompt"
             (mkWorld ["earlier"%string] [] [])
  = (Returns (Some (from_dict all_fives)),
     mkWorld (["earlier"%string] ++ repeat "prompt"%string 4) (backoffs 0 3) []).
Proof.
  assert (Hfail : forall i, (i < 3)%nat ->
            exists msg,
              second_chunk_rate_limited
                (List.length (requests (mkWorld ["earlier"%string] [] [])) + i) "prompt"
              = Raises (RateLimitError msg)).
  { intros i Hi. destruct i as [|[|[|i]]]; [eexists; reflexivity .. | lia]. }
  split; [lia|]. split; [exact Hfail|]. split; [reflexivity|]. split; [reflexivity|].
  exact (rate_limits_then_success second_chunk_rate_limited loads_all_fives 5
           "prompt" "scores" all_fives 3 (mkWorld ["earlier"%string] [] [])
           ltac:(lia) Hfail eq_refl eq_refl).
Defined.

(** Three attempts against a service that always limits the rate: request,
    one second, request, two seconds, request. *)
Lemma retry_loop_is_bounded_witness :
  0 < 3 /\
  retry_events always_rate_limited loads_all_fives 3 (Z.to_nat 3) 0 "prompt"
               initial_world
  = [Requested "prompt"; Slept 1; Requested "prompt"; Slept 2; Requested "prompt"] /\
  exists sl : list Z,
    retry_events always_rate_limited loads_all_fives 3 (Z.to_nat 3) 0 "prompt"
                 initial_world
    = alternating "prompt" sl /\
    Z.of_nat (List.length sl) < 3 /\
    Forall (fun s => 1 <= s) sl.
Proof.
  split; [lia|]. split; [reflexivity|].
  exact (proj2 (proj2 (retry_loop_is_bounded always_rate_limited loads_all_fives 3
                         "prompt" initial_world))
               ltac:(lia)).
Defined.

(** The loop over three chunks whose second exhausts its attempts, handed the
    chunk text as the prompt: the first and third chunks are scored. *)
Lemma composite_of_scored_chunks_witness :
  Exists (fun o => exists e, o = Returns (Some e))
         (chunk_outcomes
            (fun chunk => retry_loop second_chunk_rate_limited loads_all_fives 3 3 0
                                     (Parser.text chunk))
            (chunk_text char_tokenizer 1 three_paragraphs) initial_world) /\
  fst (evaluate_chunks_with
         (fun chunk => retry_loop second_chunk_rate_limited loads_all_fives 3 3 0
                                  (Parser.text chunk))
         (chunk_text char_tokenizer 1 three_paragraphs) initial_world)
  = weighted_average
      (survivors (chunk_text char_tokenizer 1 three_paragraphs)
         (chunk_outcomes
            (fun chunk => retry_loop second_chunk_rate_limited loads_all_fives 3 3 0
                                     (Parser.text chunk))
            (chunk_text char_tokenizer 1 three_paragraphs) initial_world)).
Proof.
  assert (H : Exists (fun o => exists e, o = Returns (Some e))
                (chunk_outcomes
                   (fun chunk => retry_loop second_chunk_rate_limited loads_all_fives
                                            3 3 0 (Parser.text chunk))
                   (chunk_text char_tokenizer 1 three_paragraphs) initial_world)).
  { vm_compute. left. eexists. reflexivity. }
  split; [exact H|].
  exact (proj2 (proj2 (OrchestratorFacts.composite_of_scored_chunks
                         (fun chunk => retry_loop second_chunk_rate_limited
                                                  loads_all_fives 3 3 0
                                                  (Parser.text chunk))
                         (chunk_text char_tokenizer 1 three_paragraphs)
                         initial_world) H)).
Defined.

End Instances.
